(** * hh_preprocess: the record normalization pipeline

    A shallow embedding of the handlers of [hh_preprocess] (column
    cleaning, job category, education, location and salary parsing) and
    of the text utilities they use, followed by the properties of the
    pipeline that the specification states.

    Modelling conventions.
    - A Python [str] is a list of Unicode code points ([text]).  String
      literals of the source are written as UTF-8 literals and decoded
      by [u].
    - The Unicode tables behind [str.lower], the regex class [\d] and
      [int()] are not part of the repository: they are the fields of
      the class [Unicode].  General statements hold for every table;
      the examples are evaluated with the instance [py_unicode].
    - A Python [float] that holds a number is an exact rational ([Q]);
      NaN, which the code uses as the null marker, is [None].
    - A [DataFrame] is an index (the row labels, in order) and a list of
      named columns; a handler is a computation in a state and error
      monad over the pipeline context. *)

From stdpp Require Import gmap strings list fin_maps.
From Stdlib Require Import QArith.
Close Scope Q_scope.

Set Default Proof Using "Type".

(** ** Text *)

Abbreviation cp := N.
Abbreviation text := (list N).

(** UTF-8 decoding of the bytes of a literal. *)
Fixpoint decode_utf8 (bs : list N) : text :=
  match bs with
  | [] => []
  | b :: rest =>
    if (b <? 0x80)%N then b :: decode_utf8 rest
    else if (b <? 0xE0)%N then
      match rest with
      | c1 :: r => ((b - 0xC0) * 64 + (c1 - 0x80))%N :: decode_utf8 r
      | [] => []
      end
    else if (b <? 0xF0)%N then
      match rest with
      | c1 :: c2 :: r =>
        ((b - 0xE0) * 4096 + (c1 - 0x80) * 64 + (c2 - 0x80))%N :: decode_utf8 r
      | _ => []
      end
    else
      match rest with
      | c1 :: c2 :: c3 :: r =>
        ((b - 0xF0) * 262144 + (c1 - 0x80) * 4096 + (c2 - 0x80) * 64
         + (c3 - 0x80))%N :: decode_utf8 r
      | _ => []
      end
  end.

Fixpoint bytes_of (s : string) : list N :=
  match s with
  | EmptyString => []
  | String a s' => Ascii.N_of_ascii a :: bytes_of s'
  end.

Definition u (s : string) : text := decode_utf8 (bytes_of s).

Definition SPACE : cp := 0x20%N.
Definition NBSP : cp := 0xA0%N.

(** [str.isspace], which is also the regex class [\s] on [str]. *)
Definition isspace (c : cp) : bool :=
  ((0x09 <=? c) && (c <=? 0x0D) || (0x1C <=? c) && (c <=? 0x20)
   || (c =? 0x85) || (c =? 0xA0) || (c =? 0x1680)
   || (0x2000 <=? c) && (c <=? 0x200A)
   || (c =? 0x2028) || (c =? 0x2029) || (c =? 0x202F) || (c =? 0x205F)
   || (c =? 0x3000))%N.

(** The tables of the Python runtime that the code relies on. *)
Class Unicode := {
  (** [str.lower] *)
  str_lower : text → text;
  (** the regex class [\d] on [str] (decimal digits) *)
  isdecimal : cp → bool;
  (** the value [int()] gives to a decimal digit *)
  decimal_value : cp → Z;
  (** the code points on which [str.isdigit] holds *)
  isdigit_cp : cp → bool;
}.

(** [p] is a prefix of [s]: [s.startswith(p)]. *)
Fixpoint startswith (s p : text) : bool :=
  match p, s with
  | [], _ => true
  | a :: p', b :: s' => (a =? b)%N && startswith s' p'
  | _ :: _, [] => false
  end.

(** [needle in hay] *)
Fixpoint contains (needle hay : text) : bool :=
  startswith hay needle
  || match hay with
     | [] => false
     | _ :: hay' => contains needle hay'
     end.

(** [any(n in haystack for n in needles)] *)
Definition contains_any (haystack : text) (needles : list text) : bool :=
  existsb (fun n => contains n haystack) needles.

(** [s.replace(a, b)] for single code points. *)
Definition replace1 (a b : cp) (s : text) : text :=
  map (fun c => if (c =? a)%N then b else c) s.

(** [s.replace(a, "")] for a single code point. *)
Definition remove1 (a : cp) (s : text) : text :=
  List.filter (fun c => negb (c =? a)%N) s.

(** [_SPACE_RE.sub(" ", s)]: every maximal run of whitespace becomes one
    space.  [in_run] tells that the previous code point was whitespace. *)
Fixpoint sub_spaces (in_run : bool) (s : text) : text :=
  match s with
  | [] => []
  | c :: s' =>
    if isspace c then
      if in_run then sub_spaces true s' else SPACE :: sub_spaces true s'
    else c :: sub_spaces false s'
  end.

Fixpoint lstrip (s : text) : text :=
  match s with
  | [] => []
  | c :: s' => if isspace c then lstrip s' else s
  end.

Definition rstrip (s : text) : text := reverse (lstrip (reverse s)).

(** [str.strip()] *)
Definition strip (s : text) : text := rstrip (lstrip s).

Definition normalize_spaces (s : text) : text :=
  strip (sub_spaces false (replace1 NBSP SPACE s)).

(** ** Cells *)

(** The values a cell of the table can hold.  [VNaN] is the missing
    value; only [VStr] is an instance of [str]. *)
Inductive value :=
  | VStr (s : text)
  | VNum (q : Q)
  | VBool (b : bool)
  | VNaN.

Definition is_empty (s : text) : bool :=
  match s with [] => true | _ => false end.

Definition text_eqb (a b : text) : bool := bool_decide (a = b).

Section Parsers.
Context `{Unicode}.

Definition safe_lower (s : value) : text :=
  match s with
  | VStr s => str_lower (normalize_spaces s)
  | _ => []
  end.

(** [int(raw)] on a string of decimal digits. *)
Definition int_of_digits (raw : text) : Z :=
  foldl (fun acc c => acc * 10 + decimal_value c)%Z 0%Z raw.

(** [raw.isdigit()] *)
Definition isdigit (raw : text) : bool :=
  negb (is_empty raw) && forallb isdigit_cp raw.

(** *** handlers/job_category.py *)

Definition categorize_job_title (title : value) : text :=
  let t := safe_lower title in
  if is_empty t then u "Не указано" else
  if contains (u "системный администратор") t || contains (u "system administrator") t || contains (u "sysadmin") t then u "Системный администратор" else
  if contains (u "devops") t || contains (u "sre") t || contains (u "site reliability") t then u "DevOps/SRE" else
  if contains (u "dba") t || contains (u "администратор баз данных") t || contains (u "database administrator") t then u "Администратор баз данных" else
  if contains_any t [u "data scientist"; u "ds "; u "ml engineer"; u "machine learning"] then u "Data Scientist/ML" else
  if contains_any t [u "аналитик данных"; u "data analyst"; u "bi analyst"; u "business analyst"] then u "Аналитик" else
  if contains_any t [u "тестировщик"; u "qa"; u "quality assurance"] then u "Тестировщик" else
  if contains_any t [u "разработчик"; u "программист"; u "developer"; u "software engineer"; u "backend"; u "frontend"; u "fullstack"; u "ios"; u "android"; u "java"; u "python"; u "c++"; u "golang"; u "php"; u "javascript"; u "node.js"; u "react"; u "vue"; u "1c"; u "1с"; u "unity"] then u "Программист/Разработчик" else
  if contains (u "it") t || contains (u "айти") t then u "IT-специалист" else
  if contains_any t [u "product manager"; u "product owner"; u "продакт"; u "product"; u "проектный менеджер"; u "project manager"; u "pm "] then u "Менеджер проектов/Продукта" else
  if contains_any t [u "маркетолог"; u "marketing"; u "smm"; u "таргет"; u "seo"; u "контент"; u "pr"; u "copywriter"; u "копирайтер"] then u "Маркетинг/PR/Контент" else
  if contains_any t [u "продаж"; u "sales"; u "account manager"; u "менеджер по работе с клиентами"; u "клиентами"; u "торговый представитель"; u "кассир"] then u "Продажи/Клиенты" else
  if contains_any t [u "бухгалтер"; u "accountant"; u "финанс"; u "экономист"; u "аудитор"; u "финансовый"] then u "Финансы/Бухгалтерия" else
  if contains_any t [u "hr"; u "рекрутер"; u "подбор персонала"; u "recruiter"; u "talent"] then u "HR/Рекрутер" else
  if contains (u "юрист") t || contains (u "lawyer") t || contains (u "legal") t then u "Юрист" else
  if contains_any t [u "логист"; u "logistics"; u "склад"; u "warehouse"; u "курьер"; u "доставка"; u "водитель"; u "driver"] then u "Логистика/Склад/Транспорт" else
  if contains_any t [u "дизайнер"; u "designer"; u "ux"; u "ui"; u "graphic"; u "графический"; u "иллюстратор"; u "illustrator"; u "3d"; u "2d"] then u "Дизайн/Креатив" else
  if contains_any t [u "инженер"; u "engineer"; u "технолог"; u "электрик"; u "mechanic"; u "механик"; u "строител"; u "construction"] then u "Инженерия/Производство/Строительство" else
  if contains_any t [u "секретарь"; u "assistant"; u "ассистент"; u "офис-менеджер"; u "администратор"; u "reception"] then u "Административный персонал" else
  if contains (u "оператор") t || contains (u "operator") t then u "Оператор" else
  if contains (u "специалист") t || contains (u "specialist") t then u "Специалист (общий)" else
  u "Прочее".

(** *** handlers/parse_education.py *)

Definition parse_level (val : value) : text :=
  let t := safe_lower val in
  if is_empty t then u "Не указано" else
  if contains (u "доктор") t then u "Доктор наук" else
  if contains (u "кандидат") t then u "Кандидат наук" else
  if contains (u "неокончен") t || contains (u "incomplete higher") t then
    u "Неоконченное высшее" else
  if contains (u "высшее") t || contains (u "higher education") t
     || contains (u "bachelor") t || contains (u "master") t then u "Высшее" else
  if contains (u "среднее специаль") t || contains (u "college") t
     || contains (u "vocational") t then u "Среднее специальное" else
  if contains (u "среднее") t || contains (u "secondary") t then u "Среднее" else
  u "Не указано".

(** A match of [_YEAR_RE] (19 or 20, then two decimal digits) at the
    head of [s]. *)
Definition year_at (s : text) : option text :=
  match s with
  | a :: b :: c :: d :: _ =>
    if ((a =? 0x31)%N && (b =? 0x39)%N || (a =? 0x32)%N && (b =? 0x30)%N)
       && isdecimal c && isdecimal d
    then Some [a; b; c; d] else None
  | _ => None
  end.

(** [_YEAR_RE.search(t)]: the leftmost match. *)
Fixpoint year_search (s : text) : option text :=
  match year_at s with
  | Some m => Some m
  | None => match s with
            | [] => None
            | _ :: s' => year_search s'
            end
  end.

Definition parse_year (val : value) : value :=
  let t := safe_lower val in
  if is_empty t then VNaN else
  match year_search t with
  | None => VNaN
  | Some m =>
    let year := int_of_digits m in
    if ((1950 <=? year) && (year <=? 2035))%Z then VNum (inject_Z year) else VNaN
  end.

(** *** handlers/parse_location.py *)

(** [t.split(",")[0]] *)
Fixpoint before_comma (t : text) : text :=
  match t with
  | [] => []
  | c :: t' => if (c =? 0x2C)%N then [] else c :: before_comma t'
  end.

Definition parse_city (s : value) : text :=
  match s with
  | VStr s =>
    let t := normalize_spaces s in
    if is_empty t then u "Не указано" else normalize_spaces (before_comma t)
  | _ => u "Не указано"
  end.

Definition parse_relocate (s : value) : bool :=
  let t := safe_lower s in
  if is_empty t then false else
  if contains (u "не готов к переезду") t
     || contains (u "not ready to relocate") t
     || contains (u "not willing to relocate") t then false else
  if contains (u "готов к переезду") t
     || contains (u "ready to relocate") t
     || contains (u "willing to relocate") t then true else
  false.

Definition parse_trips (s : value) : bool :=
  let t := safe_lower s in
  if is_empty t then false else
  if contains (u "не готов к командировкам") t
     || contains (u "not ready for business trips") t then false else
  if contains (u "готов к командировкам") t
     || contains (u "готов к редким командировкам") t then true else
  if contains (u "ready for business trips") t
     || contains (u "willing to travel") t then true else
  false.

(** *** handlers/parse_salary.py: the helpers *)

Definition _detect_currency (s : text) : option text :=
  let t := str_lower s in
  if contains (u "руб") t || contains (u "rur") t || contains (u "rub") t
     || contains (u "₽") t then Some (u "RUB") else
  if contains (u "usd") t || contains (u "$") t then Some (u "USD") else
  if contains (u "eur") t || contains (u "€") t then Some (u "EUR") else
  if contains (u "kzt") t || contains (u "тенге") t then Some (u "KZT") else
  if contains (u "byn") t || contains (u "бел") t then Some (u "BYN") else
  if contains (u "uah") t || contains (u "грн") t then Some (u "UAH") else
  if contains (u "uzs") t || contains (u "сум") t then Some (u "UZS") else
  if contains (u "gel") t || contains (u "лари") t then Some (u "GEL") else
  if contains (u "amd") t || contains (u "драм") t then Some (u "AMD") else
  if contains (u "azn") t || contains (u "манат") t then Some (u "AZN") else
  None.

(** [_NUM_RE.finditer(s)], where [_NUM_RE] is one decimal digit followed
    by any number of digits, whitespace and no-break spaces: the
    leftmost, longest, non-overlapping matches.  [cur] is the match being
    extended, if any. *)
Fixpoint num_matches (cur : option text) (s : text) : list text :=
  match s with
  | [] => match cur with Some raw => [raw] | None => [] end
  | c :: s' =>
    match cur with
    | Some raw =>
      if isdecimal c || isspace c || (c =? NBSP)%N
      then num_matches (Some (raw ++ [c])) s'
      else raw :: num_matches None s'
    | None =>
      if isdecimal c then num_matches (Some [c]) s' else num_matches None s'
    end
  end.

Definition _extract_numbers (s : text) : list Z :=
  omap (fun raw =>
          let raw := remove1 SPACE (replace1 NBSP SPACE raw) in
          if isdigit raw then Some (int_of_digits raw) else None)
       (num_matches None s).

(** Line 117: the negotiable markers. *)
Definition is_negotiable (t : text) : bool :=
  contains (u "договор") t || contains (u "по договор") t
  || contains (u "negotiable") t.

(** Lines 125-130: no number, one number, or the mean of the first two. *)
Definition resolve_amount (nums : list Z) : option Q :=
  match nums with
  | [] => None
  | n0 :: rest =>
    Some match rest with
         | n1 :: _ => (inject_Z (n0 + n1) / 2)%Q
         | [] => inject_Z n0
         end
  end.

(** Lines 132-133. *)
Definition scale_amount (t : text) (amount : Q) : Q :=
  if contains (u "тыс") t || contains (u "k") t then (amount * 1000)%Q
  else amount.

(** Lines 111-130 of the loop body: the lower-cased text, the currency
    and the amount before scaling, for a row that reaches line 132. *)
Definition row_amount (val : value) : option (text * text * Q) :=
  match val with
  | VStr v =>
    let s := normalize_spaces v in
    if is_empty s then None else
    let t := safe_lower (VStr s) in
    if is_negotiable t then None else
    let cur := default (u "RUB") (_detect_currency s) in
    amount ← resolve_amount (_extract_numbers s);
    Some (t, cur, amount)
  | _ => None
  end.

(** Lines 111-139: the currency and the converted amount [rub], for a
    row that reaches line 140. *)
Definition row_rub (rates : gmap text Q) (val : value) : option (text * Q) :=
  '(t, cur, amount) ← row_amount val;
  rate ← rates !! cur;
  Some (cur, (scale_amount t amount * rate)%Q).

(** Lines 111-141: what lines 143-144 store, if they are reached. *)
Definition row_result (rates : gmap text Q) (val : value) : option (text * Q) :=
  '(cur, rub) ← row_rub rates val;
  if Qle_bool rub 0 then None else Some (cur, rub).

(** One iteration of the loop of lines 110-144 on the arrays [target]
    and [curr_out]. *)
Definition salary_step (rates : gmap text Q)
    (st : list (option Q) * list text) (iv : nat * value)
  : list (option Q) * list text :=
  match row_result rates iv.2 with
  | Some (cur, rub) => (<[iv.1 := Some rub]> st.1, <[iv.1 := cur]> st.2)
  | None => st
  end.

(** Lines 107-144. *)
Definition salary_loop (rates : gmap text Q) (n : nat) (raw_series : list value)
  : list (option Q) * list text :=
  foldl (salary_step rates) (replicate n None, replicate n [])
        (imap pair raw_series).

End Parsers.

(** ** The other utilities of utils/text.py *)

(** [re.split] on a class of single code points: the pieces between the
    separators, empty pieces included. *)
Fixpoint split_on (sep : cp → bool) (s : text) : list text :=
  match s with
  | [] => [[]]
  | c :: s' =>
    if sep c then [] :: split_on sep s'
    else match split_on sep s' with
         | p :: ps => (c :: p) :: ps
         | [] => [[c]]
         end
  end.

(** The class [,;/]. *)
Definition is_multi_sep (c : cp) : bool :=
  ((c =? 0x2C) || (c =? 0x3B) || (c =? 0x2F))%N.

(** The table [aliases] of [normalize_city_name]. *)
Definition city_aliases : list (text * text) := [
  (u "msk", u "москва");
  (u "moscow", u "москва");
  (u "spb", u "санкт-петербург");
  (u "saint petersburg", u "санкт-петербург");
  (u "st petersburg", u "санкт-петербург");
  (u "st. petersburg", u "санкт-петербург");
  (u "petersburg", u "санкт-петербург");
  (u "saint-petersburg", u "санкт-петербург");
  (u "санкт петербург", u "санкт-петербург");
  (u "питер", u "санкт-петербург")
].

(** [aliases.get(s, s)] *)
Definition alias_get (aliases : list (text * text)) (s : text) : text :=
  match List.find (fun kv => text_eqb s kv.1) aliases with
  | Some kv => kv.2
  | None => s
  end.

Definition BOM : cp := 0xFEFF%N.
Definition EM_DASH : cp := 0x2014%N.
Definition EN_DASH : cp := 0x2013%N.
Definition HYPHEN : cp := 0x2D%N.

(** The substitution of [normalize_city_name]: the prefix [p] and the
    whitespace that follows it are removed, when [s] starts with [p] and
    at least one whitespace follows. *)
Definition drop_prefix_spaces (p s : text) : option text :=
  if startswith s p then
    match drop (length p) s with
    | c :: r => if isspace c then Some (lstrip r) else None
    | [] => None
    end
  else None.

Section TextUtils.
Context `{Unicode}.

Definition split_multi_categories (t : value) : list text :=
  match t with
  | VStr t =>
    let s := normalize_spaces t in
    if is_empty s then [] else
    List.filter (fun p => negb (is_empty p))
      (map (fun p => str_lower (normalize_spaces p)) (split_on is_multi_sep s))
  | _ => []
  end.

(** The match of a run of decimal digits at the head of [s]. *)
Fixpoint digit_run (s : text) : text :=
  match s with
  | [] => []
  | c :: s' => if isdecimal c then c :: digit_run s' else []
  end.

(** [re.search] for a run of decimal digits: the leftmost, longest one. *)
Fixpoint first_digit_run (s : text) : option text :=
  match s with
  | [] => None
  | c :: s' => if isdecimal c then Some (c :: digit_run s') else first_digit_run s'
  end.

Definition extract_first_int (t : text) : option Z :=
  int_of_digits <$> first_digit_run t.

Definition normalize_city_name (value : value) : text :=
  let s := safe_lower value in
  if is_empty s then [] else
  let s := remove1 BOM s in
  let s := strip match drop_prefix_spaces (u "г.") s with
                 | Some r => r
                 | None => match drop_prefix_spaces (u "город") s with
                           | Some r => r
                           | None => s
                           end
                 end in
  let s := replace1 EN_DASH HYPHEN (replace1 EM_DASH HYPHEN s) in
  alias_get city_aliases s.

End TextUtils.

(** ** The table *)

(** A pandas [DataFrame]: the row labels and the named columns, each a
    list of cells in row order. *)
Record DataFrame := {
  index : list Z;
  columns : list (text * list value);
}.

(** [len(df)] *)
Definition df_len (d : DataFrame) : nat := length (index d).

(** [list(df.columns)] *)
Definition col_names (d : DataFrame) : list text := (columns d).*1.

(** [name in df.columns] *)
Definition has_column (name : text) (d : DataFrame) : bool :=
  existsb (text_eqb name) (col_names d).

(** [df[name]] for a present column. *)
Definition get_column (name : text) (d : DataFrame) : list value :=
  match List.find (fun c => text_eqb name c.1) (columns d) with
  | Some c => c.2
  | None => []
  end.

Fixpoint assign (name : text) (series : list value)
    (cols : list (text * list value)) : list (text * list value) :=
  match cols with
  | [] => [(name, series)]
  | c :: rest =>
    if text_eqb name c.1 then (name, series) :: rest
    else c :: assign name series rest
  end.

(** [df[name] = series]: the column is rewritten in place, or appended. *)
Definition set_column (name : text) (series : list value) (d : DataFrame)
  : DataFrame :=
  {| index := index d; columns := assign name series (columns d) |}.

(** [df[name] = v] for a scalar [v]. *)
Definition set_scalar (name : text) (v : value) (d : DataFrame) : DataFrame :=
  set_column name (replicate (df_len d) v) d.

(** [df.drop(columns=names, errors="ignore")] *)
Definition drop_columns (names : list text) (d : DataFrame) : DataFrame :=
  {| index := index d;
     columns := List.filter (fun c => negb (existsb (text_eqb c.1) names))
                            (columns d) |}.

(** [df.columns = names] *)
Definition rename_columns (f : text → text) (d : DataFrame) : DataFrame :=
  {| index := index d; columns := map (fun c => (f c.1, c.2)) (columns d) |}.

(** The elements of [l] at the positions where [mask] holds. *)
Fixpoint select {A} (mask : list bool) (l : list A) : list A :=
  match mask, l with
  | b :: mask', x :: l' => if b then x :: select mask' l' else select mask' l'
  | _, _ => []
  end.

(** [df.loc[mask, names]] *)
Definition loc (mask : list bool) (names : list text) (d : DataFrame)
  : DataFrame :=
  {| index := select mask (index d);
     columns := map (fun n => (n, select mask (get_column n d))) names |}.

(** [df.head(n)] *)
Definition head (n : nat) (d : DataFrame) : DataFrame :=
  {| index := take n (index d);
     columns := map (fun c => (c.1, take n c.2)) (columns d) |}.

(** ** The pipeline context and the handlers *)

Inductive diag_value :=
  | DStr (s : text)
  | DInt (n : Z)
  | DFrame (d : DataFrame).

Record PipelineContext := {
  df : option DataFrame;
  output_dir : text;
  diag : gmap string diag_value;
}.

Inductive exn :=
  | ValueError (msg : text)
  | Exception (msg : text).

Inductive outcome (A : Type) :=
  | Return (a : A)
  | Raise (e : exn).
Arguments Return {A} a.
Arguments Raise {A} e.

(** A handler body runs on the context, which it may update, and returns
    or raises. *)
Definition handler (A : Type) : Type :=
  PipelineContext → outcome A * PipelineContext.

Instance handler_ret : MRet handler := fun A a ctx => (Return a, ctx).
Instance handler_bind : MBind handler := fun A B f m ctx =>
  match m ctx with
  | (Return a, ctx') => f a ctx'
  | (Raise e, ctx') => (Raise e, ctx')
  end.

Definition raise {A} (e : exn) : handler A := fun ctx => (Raise e, ctx).

(** A call of a function outside the pipeline, which returns or raises. *)
Definition call {A} (o : outcome A) : handler A := fun ctx => (o, ctx).

(** [ctx.df] *)
Definition get_df : handler (option DataFrame) := fun ctx => (Return (df ctx), ctx).

(** [ctx.output_dir] *)
Definition get_output_dir : handler text :=
  fun ctx => (Return (output_dir ctx), ctx).

(** [ctx.df = d] *)
Definition set_df (d : DataFrame) : handler unit := fun ctx =>
  (Return (), {| df := Some d; output_dir := output_dir ctx; diag := diag ctx |}).

(** [ctx.diag[k] = v] *)
Definition set_diag (k : string) (v : diag_value) : handler unit := fun ctx =>
  (Return (),
   {| df := df ctx; output_dir := output_dir ctx; diag := <[k := v]> (diag ctx) |}).

(** The guard that opens every handler: [ctx.df.copy()], or the error. *)
Definition load_df : handler DataFrame :=
  d ← get_df;
  match d with
  | None => raise (ValueError (u "DataFrame is not loaded"))
  | Some d => mret d
  end.

Record FxRates := {
  rates : gmap text Q;
  source : text;
}.

Definition float_cell (x : option Q) : value :=
  match x with Some q => VNum q | None => VNaN end.

Definition _SALARY_COL : text := u "ЗП".
Definition _CITY_COL : text := u "Город".
Definition _EDU_COL : text := u "Образование и ВУЗ".

Section Handlers.
Context `{Unicode}.

(** The rate provider [utils.currency.load_fx_rates] is outside the
    pipeline: it is given the output directory and returns the rates or
    raises. *)
Variable load_fx_rates : text → outcome FxRates.

(** *** CleanColumnsHandler._handle *)
Definition CleanColumnsHandler_handle : handler unit :=
  d ← load_df;
  let d := rename_columns strip d in
  let drop_cols :=
    List.filter (fun c => startswith (str_lower c) (u "unnamed")) (col_names d) in
  let d := match drop_cols with [] => d | _ => drop_columns drop_cols d end in
  set_df d.

(** *** JobCategoryHandler._handle *)
Definition JobCategoryHandler_handle : handler unit :=
  d ← load_df;
  let desired_col :=
    List.find (fun c => contains (u "ищет работу на должность") (str_lower c))
              (col_names d) in
  let current_title_col :=
    List.find (fun c => contains (u "нынешняя должность") (str_lower c)
                        || contains (u "нынешняя должност") (str_lower c))
              (col_names d) in
  let d :=
    match desired_col with
    | None => set_scalar (u "job_category") (VStr (u "Не указано")) d
    | Some c =>
      set_column (u "job_category")
                 (map (fun v => VStr (categorize_job_title v)) (get_column c d)) d
    end in
  let d :=
    match current_title_col with
    | None => set_scalar (u "current_job_category") (VStr (u "Не указано")) d
    | Some c =>
      set_column (u "current_job_category")
                 (map (fun v => VStr (categorize_job_title v)) (get_column c d)) d
    end in
  let drop_cols := option_list desired_col ++ option_list current_title_col in
  let d := drop_columns drop_cols d in
  let employer_col :=
    List.find (fun c => contains (u "место работы") (str_lower c)) (col_names d) in
  let d :=
    match employer_col with
    | Some c => drop_columns [c] d
    | None => d
    end in
  set_df d.

(** *** ParseEducationHandler._handle *)
Definition ParseEducationHandler_handle : handler unit :=
  d ← load_df;
  if negb (has_column _EDU_COL d) then
    let d := set_scalar (u "education_level") (VStr (u "Не указано")) d in
    let d := set_scalar (u "education_year") VNaN d in
    set_df d
  else
    let d := set_column (u "education_level")
               (map (fun v => VStr (parse_level v)) (get_column _EDU_COL d)) d in
    let d := set_column (u "education_year")
               (map parse_year (get_column _EDU_COL d)) d in
    set_df d.

(** *** ParseLocationHandler._handle *)
Definition ParseLocationHandler_handle : handler unit :=
  d ← load_df;
  if negb (has_column _CITY_COL d) then
    let d := set_scalar (u "city") (VStr (u "Не указано")) d in
    let d := set_scalar (u "relocate_ready") (VBool false) d in
    let d := set_scalar (u "trips_ready") (VBool false) d in
    set_df d
  else
    let d := set_column (u "city")
               (map (fun v => VStr (parse_city v)) (get_column _CITY_COL d)) d in
    let d := set_column (u "relocate_ready")
               (map (fun v => VBool (parse_relocate v)) (get_column _CITY_COL d)) d in
    let d := set_column (u "trips_ready")
               (map (fun v => VBool (parse_trips v)) (get_column _CITY_COL d)) d in
    set_df d.

(** *** ParseSalaryHandler._handle *)

(** [np.isnan(target)] *)
Definition nan_mask_of (target : list (option Q)) : list bool :=
  map (fun x => match x with None => true | Some _ => false end) target.

(** [target == 0] *)
Definition zero_mask_of (target : list (option Q)) : list bool :=
  map (fun x => match x with Some q => Qeq_bool q 0 | None => false end) target.

(** [int(mask.sum())] *)
Definition mask_sum (mask : list bool) : Z :=
  Z.of_nat (length (List.filter id mask)).

Definition ParseSalaryHandler_handle : handler unit :=
  d ← load_df;
  if negb (has_column _SALARY_COL d) then
    raise (ValueError (u "Required target column 'ЗП' not found"))
  else
    dir ← get_output_dir;
    fx ← call (load_fx_rates dir);
    set_diag "fx_rates_source" (DStr (source fx));;
    let raw_series := get_column _SALARY_COL d in
    let '(target, curr_out) := salary_loop (rates fx) (df_len d) raw_series in
    let d := set_column (u "salary_currency") (map VStr curr_out) d in
    let d := set_column (u "target_salary_rub") (map float_cell target) d in
    let nan_mask := nan_mask_of target in
    set_diag "rows_with_nan_target" (DInt (mask_sum nan_mask));;
    (if existsb id nan_mask then
       let ex := head 20 (loc nan_mask [_SALARY_COL; u "salary_currency"] d) in
       set_diag "nan_target_examples" (DFrame ex)
     else mret ());;
    set_diag "target_zeros" (DInt (mask_sum (zero_mask_of target)));;
    set_df d.

End Handlers.

(** The tables on Basic Latin, Latin-1 and the Cyrillic block. *)
Definition lower_cp (c : cp) : cp :=
  if ((0x41 <=? c) && (c <=? 0x5A))%N then (c + 32)%N
  else if ((0xC0 <=? c) && (c <=? 0xDE) && negb (c =? 0xD7))%N then (c + 32)%N
  else if ((0x400 <=? c) && (c <=? 0x40F))%N then (c + 80)%N
  else if ((0x410 <=? c) && (c <=? 0x42F))%N then (c + 32)%N
  else c.

Definition is_ascii_digit (c : cp) : bool := ((0x30 <=? c) && (c <=? 0x39))%N.

Instance py_unicode : Unicode := {|
  str_lower := map lower_cp;
  isdecimal := is_ascii_digit;
  decimal_value := fun c => (Z.of_N c - 0x30)%Z;
  isdigit_cp := fun c =>
    is_ascii_digit c || (c =? 0xB2)%N || (c =? 0xB3)%N || (c =? 0xB9)%N;
|}.



(** ** Notions of the specification *)

(** The category rules as an ordered list of (label, keywords) pairs, in
    the order of the conditionals of [categorize_job_title]. *)
Definition job_rules : list (text * list text) := [
  (u "Системный администратор", [u "системный администратор"; u "system administrator"; u "sysadmin"]);
  (u "DevOps/SRE", [u "devops"; u "sre"; u "site reliability"]);
  (u "Администратор баз данных", [u "dba"; u "администратор баз данных"; u "database administrator"]);
  (u "Data Scientist/ML", [u "data scientist"; u "ds "; u "ml engineer"; u "machine learning"]);
  (u "Аналитик", [u "аналитик данных"; u "data analyst"; u "bi analyst"; u "business analyst"]);
  (u "Тестировщик", [u "тестировщик"; u "qa"; u "quality assurance"]);
  (u "Программист/Разработчик", [u "разработчик"; u "программист"; u "developer"; u "software engineer"; u "backend"; u "frontend"; u "fullstack"; u "ios"; u "android"; u "java"; u "python"; u "c++"; u "golang"; u "php"; u "javascript"; u "node.js"; u "react"; u "vue"; u "1c"; u "1с"; u "unity"]);
  (u "IT-специалист", [u "it"; u "айти"]);
  (u "Менеджер проектов/Продукта", [u "product manager"; u "product owner"; u "продакт"; u "product"; u "проектный менеджер"; u "project manager"; u "pm "]);
  (u "Маркетинг/PR/Контент", [u "маркетолог"; u "marketing"; u "smm"; u "таргет"; u "seo"; u "контент"; u "pr"; u "copywriter"; u "копирайтер"]);
  (u "Продажи/Клиенты", [u "продаж"; u "sales"; u "account manager"; u "менеджер по работе с клиентами"; u "клиентами"; u "торговый представитель"; u "кассир"]);
  (u "Финансы/Бухгалтерия", [u "бухгалтер"; u "accountant"; u "финанс"; u "экономист"; u "аудитор"; u "финансовый"]);
  (u "HR/Рекрутер", [u "hr"; u "рекрутер"; u "подбор персонала"; u "recruiter"; u "talent"]);
  (u "Юрист", [u "юрист"; u "lawyer"; u "legal"]);
  (u "Логистика/Склад/Транспорт", [u "логист"; u "logistics"; u "склад"; u "warehouse"; u "курьер"; u "доставка"; u "водитель"; u "driver"]);
  (u "Дизайн/Креатив", [u "дизайнер"; u "designer"; u "ux"; u "ui"; u "graphic"; u "графический"; u "иллюстратор"; u "illustrator"; u "3d"; u "2d"]);
  (u "Инженерия/Производство/Строительство", [u "инженер"; u "engineer"; u "технолог"; u "электрик"; u "mechanic"; u "механик"; u "строител"; u "construction"]);
  (u "Административный персонал", [u "секретарь"; u "assistant"; u "ассистент"; u "офис-менеджер"; u "администратор"; u "reception"]);
  (u "Оператор", [u "оператор"; u "operator"]);
  (u "Специалист (общий)", [u "специалист"; u "specialist"])
].

(** A rule matches a text when one of its keywords occurs in it. *)
Definition rule_matches (t : text) (r : text * list text) : bool :=
  contains_any t r.2.

(** First-match-wins evaluation of an ordered rule list. *)
Fixpoint first_match (rules : list (text * list text)) (t : text)
    (other : text) : text :=
  match rules with
  | [] => other
  | r :: rules' => if rule_matches t r then r.1 else first_match rules' t other
  end.

(** The phrases of [parse_relocate] and [parse_trips], negative and
    positive. *)
Definition relocate_negative : list text :=
  [u "не готов к переезду"; u "not ready to relocate"; u "not willing to relocate"].
Definition relocate_positive : list text :=
  [u "готов к переезду"; u "ready to relocate"; u "willing to relocate"].
Definition trips_negative : list text :=
  [u "не готов к командировкам"; u "not ready for business trips"].
Definition trips_positive : list text :=
  [u "готов к командировкам"; u "готов к редким командировкам";
   u "ready for business trips"; u "willing to travel"].

(** The invariant of a table: every column has one cell per row. *)
Definition aligned (d : DataFrame) : Prop :=
  Forall (fun c => length c.2 = df_len d) (columns d).

(** The currency codes that [_detect_currency] can return. *)
Definition currency_codes : list text :=
  [u "RUB"; u "USD"; u "EUR"; u "KZT"; u "BYN"; u "UAH"; u "UZS"; u "GEL";
   u "AMD"; u "AZN"].

(** The derived attributes of the data model. *)
Definition derived_columns : list text :=
  [u "job_category"; u "current_job_category"; u "education_level";
   u "education_year"; u "city"; u "relocate_ready"; u "trips_ready";
   u "salary_currency"; u "target_salary_rub"].

(** [d'] has the rows of [d], in the same order: the same row labels,
    one cell per row in every column, and every column that is not a
    derived attribute carries the cells of a column of [d]. *)
Definition rows_kept (d d' : DataFrame) : Prop :=
  index d' = index d
  ∧ aligned d'
  ∧ ∀ c, c ∈ columns d' →
      c.1 ∈ derived_columns ∨ ∃ c0, c0 ∈ columns d ∧ c0.2 = c.2.

Section SpecNotions.
Context `{Unicode}.

(** The five stages, in the order of the chain. *)
Definition stages (load_fx_rates : text → outcome FxRates)
  : list (handler unit) :=
  [CleanColumnsHandler_handle; JobCategoryHandler_handle;
   ParseEducationHandler_handle; ParseLocationHandler_handle;
   ParseSalaryHandler_handle load_fx_rates].

(** What lines 143-144 leave in [target] and in [curr_out] for a row. *)
Definition row_target (rates : gmap text Q) (val : value) : option Q :=
  snd <$> row_result rates val.
Definition row_currency (rates : gmap text Q) (val : value) : text :=
  from_option fst [] (row_result rates val).

(** The rows that the stage leaves null. *)
Definition null_row (rates : gmap text Q) (val : value) : bool :=
  match row_target rates val with None => true | Some _ => false end.

(** The converted amounts that are exactly zero, counted before the
    rejection of line 140. *)
Definition pre_rejection_zeros (rates : gmap text Q) (raw_series : list value)
  : Z :=
  Z.of_nat (length (List.filter
    (fun v => match row_rub rates v with
              | Some (_, rub) => Qeq_bool rub 0
              | None => false
              end) raw_series)).

(** An abbreviated "k" suffix: the letter k that closes a number,
    directly or after whitespace. *)
Fixpoint k_suffix (t : text) : bool :=
  match t with
  | [] => false
  | c :: t' =>
    isdecimal c && startswith (lstrip t') (u "k") || k_suffix t'
  end.

End SpecNotions.

(** ** Shapes of texts *)

(** Every whitespace of [s] is a plain space that follows a code point
    which is not whitespace; [prev] tells that a whitespace, or the start
    of the text, comes just before [s]. *)
Fixpoint spaced (prev : bool) (s : text) : bool :=
  match s with
  | [] => true
  | c :: s' =>
    if isspace c then (c =? SPACE)%N && negb prev && spaced true s'
    else spaced false s'
  end.

(** The last code point of [s], if any, is not whitespace. *)
Fixpoint ends_nonspace (s : text) : bool :=
  match s with
  | [] => true
  | [c] => negb (isspace c)
  | _ :: s' => ends_nonspace s'
  end.

(** The texts that [normalize_spaces] produces: no whitespace at either
    end, and single plain spaces as the only whitespace inside. *)
Definition is_normalized (s : text) : bool :=
  spaced true s && ends_nonspace s.

(** ** The education levels *)

(** The rules of [parse_level], in the order of its conditionals. *)
Definition edu_rules : list (text * list text) := [
  (u "Доктор наук", [u "доктор"]);
  (u "Кандидат наук", [u "кандидат"]);
  (u "Неоконченное высшее", [u "неокончен"; u "incomplete higher"]);
  (u "Высшее", [u "высшее"; u "higher education"; u "bachelor"; u "master"]);
  (u "Среднее специальное", [u "среднее специаль"; u "college"; u "vocational"]);
  (u "Среднее", [u "среднее"; u "secondary"])
].

(** The labels that [parse_level] returns. *)
Definition education_levels : list text :=
  [u "Доктор наук"; u "Кандидат наук"; u "Неоконченное высшее"; u "Высшее";
   u "Среднее специальное"; u "Среднее"; u "Не указано"].

(** ** A sample run *)

(** A provider with two rates, and a small raw table. *)
Definition sample_rates : FxRates :=
  {| rates := {[ u "RUB" := 1%Q; u "USD" := 90%Q ]}; source := u "fallback" |}.

Definition sample_fx (dir : text) : outcome FxRates := Return sample_rates.

Definition sample_table : DataFrame := {|
  index := [0; 1; 2; 3]%Z;
  columns :=
    [(u " Unnamed: 0 ", [VNum 0; VNum 1; VNum 2; VNum 3]);
     (u "Ищет работу на должность:",
      [VStr (u "Системный администратор"); VStr (u "Recruiter"); VNaN;
       VStr (u "Senior Developer (DevOps)")]);
     (u "ЗП",
      [VStr (u "от 80 000 до 100 000 руб."); VStr (u "60k USD");
       VStr (u "З/П по договорённости, от 100 000 руб."); VStr (u "0 руб.")]);
     (u "Город",
      [VStr (u "Москва , готов к переезду, готов к командировкам"); VNaN;
       VStr (u "Санкт-Петербург, не готов к переезду"); VStr (u "Казань")]);
     (u "Образование и ВУЗ",
      [VStr (u "Высшее образование 2010 МГУ"); VStr (u "Среднее специальное");
       VNaN; VStr (u "Кандидат наук 1949")])]
|}.

Definition sample_ctx : PipelineContext :=
  {| df := Some sample_table; output_dir := u "out"; diag := ∅ |}.

(** * Properties *)

(** ** Text *)

Lemma startswith_spec (s p : text) :
  startswith s p = true ↔ ∃ r, s = p ++ r.
Proof.
  revert p. induction s as [|b s IH]; intros [|a p]; simpl.
  - split; [exists []; done | done].
  - split; [done | intros [r Hr]; done].
  - split; [eexists; done | done].
  - rewrite andb_true_iff, N.eqb_eq, IH. split.
    + intros [-> [r ->]]. by exists r.
    + intros [r Hr]. simplify_eq. eauto.
Qed.

Lemma contains_spec (needle hay : text) :
  contains needle hay = true ↔ ∃ a b, hay = a ++ needle ++ b.
Proof.
  induction hay as [|c hay IH]; cbn [contains].
  - rewrite orb_false_r, startswith_spec. split.
    + intros [r Hr]. exists [], r. done.
    + intros (a & b & Hab). destruct a; [by exists b|done].
  - rewrite orb_true_iff, startswith_spec, IH. split.
    + intros [[r Hr] | (a & b & ->)].
      * exists [], r. done.
      * exists (c :: a), b. done.
    + intros ([|c' a] & b & Hab); simpl in Hab.
      * left. by exists b.
      * right. simplify_eq. by exists a, b.
Qed.

Lemma contains_any_spec (t : text) (needles : list text) :
  contains_any t needles = true ↔ ∃ n, n ∈ needles ∧ contains n t = true.
Proof.
  unfold contains_any. rewrite existsb_exists.
  setoid_rewrite list_elem_of_In. done.
Qed.

Lemma contains_nil (needle : text) : contains needle [] = is_empty needle.
Proof. by destruct needle. Qed.

Lemma contains_trans (a b t : text) :
  contains a b = true → contains b t = true → contains a t = true.
Proof.
  rewrite !contains_spec. intros (x & y & ->) (x' & y' & ->).
  exists (x' ++ x), (y ++ y'). by rewrite <- !app_assoc.
Qed.

Lemma contains_any_nil (needles : list text) :
  forallb (fun n => negb (is_empty n)) needles = true →
  contains_any [] needles = false.
Proof.
  intros Hne. apply not_true_is_false. rewrite contains_any_spec.
  intros (n & Hn & Hc). rewrite contains_nil in Hc.
  rewrite forallb_forall in Hne. apply list_elem_of_In, Hne in Hn.
  by rewrite Hc in Hn.
Qed.

(** ** Classification by ordered rules *)

Lemma first_match_skip (rules rules' : list (text * list text)) t other :
  Forall (fun r => rule_matches t r = false) rules →
  first_match (rules ++ rules') t other = first_match rules' t other.
Proof. induction 1 as [|r rules Hr _ IH]; simpl; [done|]. by rewrite Hr. Qed.

Lemma first_match_least (rules : list (text * list text)) t other k rk :
  rules !! k = Some rk →
  rule_matches t rk = true →
  (∀ k' r', k' < k → rules !! k' = Some r' → rule_matches t r' = false) →
  first_match rules t other = rk.1.
Proof.
  revert k. induction rules as [|r rules IH]; intros [|k] Hk Hm Hlt; simplify_eq/=.
  - by rewrite Hm.
  - rewrite (Hlt 0 r); [|lia|done].
    apply (IH k); [done..|]. intros k' r' ? ?. apply (Hlt (S k')); [lia|done].
Qed.

(** Among the rules that match there is a first one. *)
Lemma matching_rule_least (rules : list (text * list text)) t i ri :
  rules !! i = Some ri → rule_matches t ri = true →
  ∃ k rk, k ≤ i ∧ rules !! k = Some rk ∧ rule_matches t rk = true ∧
    ∀ k' r', k' < k → rules !! k' = Some r' → rule_matches t r' = false.
Proof.
  revert i. induction rules as [|r rules IH]; intros [|i] Hi Hm; simplify_eq/=.
  - exists 0, ri. repeat split; [done..|]. intros; lia.
  - destruct (rule_matches t r) eqn:Hr.
    + exists 0, r. repeat split; [lia|done..|]. intros; lia.
    + destruct (IH i Hi Hm) as (k & rk & Hle & Hk & Hmk & Hlt).
      exists (S k), rk. repeat split; [lia|done..|].
      intros [|k'] r' ? ?; simplify_eq/=; [done|]. apply (Hlt k'); [lia|done].
Qed.

Section Classification.
Context `{Unicode}.

(** The conditionals of [categorize_job_title] are the first-match-wins
    evaluation of [job_rules]. *)
Lemma categorize_first_match (title : value) :
  categorize_job_title title =
    if is_empty (safe_lower title) then u "Не указано"
    else first_match job_rules (safe_lower title) (u "Прочее").
Proof.
  unfold categorize_job_title, job_rules.
  cbn [first_match rule_matches contains_any existsb fst snd].
  rewrite !orb_false_r, !orb_assoc. reflexivity.
Qed.

Lemma job_keywords_nonempty :
  forallb (fun r => forallb (fun n => negb (is_empty n)) r.2) job_rules = true.
Proof. vm_compute. reflexivity. Qed.

Lemma job_labels_distinct : NoDup job_rules.*1.
Proof. apply (bool_decide_unpack _). vm_compute. reflexivity. Qed.

Lemma job_rule_nonempty_text t i ri :
  job_rules !! i = Some ri → rule_matches t ri = true → is_empty t = false.
Proof.
  intros Hi Hm. destruct t as [|c t]; [|done].
  unfold rule_matches in Hm. rewrite contains_any_nil in Hm; [done|].
  pose proof job_keywords_nonempty as Hne. rewrite forallb_forall in Hne.
  apply (Hne ri). apply list_elem_of_In. by eapply list_elem_of_lookup_2.
Qed.

End Classification.

(** C8. [categorize_job_title] is the first-match-wins evaluation of the
    fixed ordered rule list [job_rules].  When the normalized title
    matches two rules, the one later in the order never gives the label:
    the label is that of the first rule that matches, which is the
    earlier of the two as soon as no rule before it matches.  A title
    with both "developer" and "devops" is labelled DevOps/SRE. *)
Theorem categorize_job_title_first_match_wins :
  (∀ (U : Unicode) (title : value),
     categorize_job_title title =
       if is_empty (safe_lower title) then u "Не указано"
       else first_match job_rules (safe_lower title) (u "Прочее"))
  ∧ (∀ (U : Unicode) (title : value) (i j : nat)
       (li lj : text) (ki kj : list text),
       job_rules !! i = Some (li, ki) → job_rules !! j = Some (lj, kj) → i < j →
       contains_any (safe_lower title) ki = true →
       contains_any (safe_lower title) kj = true →
       categorize_job_title title ≠ lj
       ∧ (∃ k lk kk, k ≤ i ∧ job_rules !! k = Some (lk, kk)
                  ∧ contains_any (safe_lower title) kk = true
                  ∧ (∀ k' r', k' < k → job_rules !! k' = Some r' →
                              rule_matches (safe_lower title) r' = false)
                  ∧ categorize_job_title title = lk)
       ∧ ((∀ k r, k < i → job_rules !! k = Some r →
                  rule_matches (safe_lower title) r = false) →
          categorize_job_title title = li))
  ∧ (contains (u "developer") (safe_lower (VStr (u "Senior Developer (DevOps)"))) = true
     ∧ contains (u "devops") (safe_lower (VStr (u "Senior Developer (DevOps)"))) = true
     ∧ categorize_job_title (VStr (u "Senior Developer (DevOps)")) = u "DevOps/SRE").
Proof.
  split; [intros; apply categorize_first_match|]. split; [|by vm_compute].
  intros U title i j li lj ki kj Hi Hj Hij Hmi Hmj.
  destruct (matching_rule_least _ _ _ _ Hi Hmi)
    as (k & [lk kk] & Hle & Hk & Hmk & Hlt).
  assert (Hcat : categorize_job_title title = lk).
  { rewrite categorize_first_match, (job_rule_nonempty_text _ _ _ Hi Hmi).
    by apply (first_match_least _ _ _ k (lk, kk)). }
  split; [|split].
  - rewrite Hcat. intros Heq.
    assert (k = j); [|lia].
    eapply (NoDup_lookup _ _ _ _ job_labels_distinct);
      rewrite list_lookup_fmap; [by rewrite Hk | rewrite Hj; simpl; by rewrite Heq].
  - by exists k, lk, kk.
  - intros Hbefore. destruct (decide (k = i)) as [->|Hne]; [by simplify_eq|].
    rewrite (Hbefore k (lk, kk)) in Hmk; [done|lia|done].
Qed.

Lemma categorize_job_title_first_match_wins_witness :
  contains_any (safe_lower (VStr (u "Senior Developer (DevOps)")))
    [u "devops"; u "sre"; u "site reliability"] = true
  ∧ categorize_job_title (VStr (u "Senior Developer (DevOps)"))
    ≠ u "Программист/Разработчик".
Proof.
  split; [vm_compute; reflexivity|].
  refine (proj1 (proj1 (proj2 categorize_job_title_first_match_wins)
            py_unicode (VStr (u "Senior Developer (DevOps)")) 1 6
            (u "DevOps/SRE") (u "Программист/Разработчик")
            [u "devops"; u "sre"; u "site reliability"] _ _ _ _ _ _));
    [reflexivity | reflexivity | lia
    | vm_compute; reflexivity | vm_compute; reflexivity].
Defined.

(** C10. The IT rule matches on the two letters "it" anywhere in the
    normalized title: a title that contains "it" and matches none of the
    seven rules placed before the IT rule is labelled IT-специалист.  So
    is "recruiter", although it is a keyword of the HR rule, which comes
    later in the order. *)
Theorem categorize_job_title_it_substring :
  job_rules !! 7 = Some (u "IT-специалист", [u "it"; u "айти"])
  ∧ (∀ (U : Unicode) (title : value),
       contains (u "it") (safe_lower title) = true →
       Forall (fun r => rule_matches (safe_lower title) r = false)
              (take 7 job_rules) →
       categorize_job_title title = u "IT-специалист")
  ∧ (categorize_job_title (VStr (u "recruiter")) = u "IT-специалист"
     ∧ ∃ hr, job_rules !! 12 = Some (u "HR/Рекрутер", hr)
             ∧ u "recruiter" ∈ hr
             ∧ rule_matches (safe_lower (VStr (u "recruiter"))) (u "HR/Рекрутер", hr) = true).
Proof.
  split; [reflexivity|]. split.
  - intros U title Hit Hbefore.
    rewrite categorize_first_match.
    destruct (safe_lower title) as [|c t] eqn:Ht; [done|]. cbn [is_empty].
    rewrite <- (take_drop 7 job_rules), first_match_skip by done.
    unfold job_rules. cbn [drop first_match rule_matches contains_any existsb fst snd].
    by rewrite Hit.
  - split; [by vm_compute|]. eexists. split; [reflexivity|].
    split; [|by vm_compute]. set_solver.
Qed.

Lemma categorize_job_title_it_substring_witness :
  contains (u "it") (safe_lower (VStr (u "Credit officer"))) = true
  ∧ categorize_job_title (VStr (u "Credit officer")) = u "IT-специалист".
Proof.
  split; [reflexivity|].
  apply (proj1 (proj2 categorize_job_title_it_substring) py_unicode);
    [vm_compute; reflexivity|].
  unfold job_rules. cbn [take]. repeat constructor.
Defined.

Section Location.
Context `{Unicode}.

Lemma parse_relocate_phrases (s : value) :
  parse_relocate s =
    negb (contains_any (safe_lower s) relocate_negative)
    && contains_any (safe_lower s) relocate_positive.
Proof.
  unfold parse_relocate, relocate_negative, relocate_positive.
  cbn [contains_any existsb]. rewrite !orb_false_r, !orb_assoc.
  destruct (safe_lower s) as [|c t]; [done|]. cbn [is_empty].
  repeat case_match; done.
Qed.

Lemma parse_trips_phrases (s : value) :
  parse_trips s =
    negb (contains_any (safe_lower s) trips_negative)
    && contains_any (safe_lower s) trips_positive.
Proof.
  unfold parse_trips, trips_negative, trips_positive.
  cbn [contains_any existsb]. rewrite !orb_false_r, !orb_assoc.
  destruct (safe_lower s) as [|c t]; [done|]. cbn [is_empty].
  repeat case_match; try done.
  all: repeat match goal with
         | H : _ || _ = false |- _ => apply orb_false_elim in H as [? ?]
         end; congruence.
Qed.

End Location.

(** C7. [parse_relocate] and [parse_trips] test the negative phrases
    first and the positive phrases next, and give false when neither
    matches: the result is "no negative phrase and some positive
    phrase".  A text with "не готов к переезду" gives false although
    the positive phrase "готов к переезду" occurs in it. *)
Theorem location_negative_precedence :
  (∀ (U : Unicode) (s : value),
     parse_relocate s =
       negb (contains_any (safe_lower s) relocate_negative)
       && contains_any (safe_lower s) relocate_positive)
  ∧ (∀ (U : Unicode) (s : value),
       parse_trips s =
         negb (contains_any (safe_lower s) trips_negative)
         && contains_any (safe_lower s) trips_positive)
  ∧ (∀ (U : Unicode) (s : value),
       contains (u "не готов к переезду") (safe_lower s) = true →
       contains (u "готов к переезду") (safe_lower s) = true
       ∧ parse_relocate s = false)
  ∧ (contains (u "готов к переезду")
       (safe_lower (VStr (u "Санкт-Петербург, не готов к переезду"))) = true
     ∧ parse_relocate (VStr (u "Санкт-Петербург, не готов к переезду")) = false).
Proof.
  split; [intros; apply parse_relocate_phrases|].
  split; [intros; apply parse_trips_phrases|].
  split; [|by vm_compute].
  intros U s Hneg. split.
  - eapply contains_trans; [|exact Hneg]. by vm_compute.
  - rewrite parse_relocate_phrases. unfold relocate_negative.
    cbn [contains_any existsb]. by rewrite Hneg.
Qed.

Lemma location_negative_precedence_witness :
  contains (u "не готов к переезду")
    (safe_lower (VStr (u "Казань, НЕ готов к переезду, готов к командировкам"))) = true
  ∧ parse_relocate (VStr (u "Казань, НЕ готов к переезду, готов к командировкам")) = false.
Proof.
  split; [reflexivity|].
  apply (proj1 (proj2 (proj2 location_negative_precedence)) py_unicode).
  vm_compute; reflexivity.
Defined.

(** ** Tables *)

Lemma text_eqb_eq (a b : text) : text_eqb a b = true ↔ a = b.
Proof. unfold text_eqb. apply bool_decide_eq_true. Qed.

Lemma has_column_elem (name : text) (d : DataFrame) :
  has_column name d = true ↔ name ∈ col_names d.
Proof.
  unfold has_column. rewrite existsb_exists. split.
  - intros (x & Hx & Heq). apply text_eqb_eq in Heq as ->.
    by apply list_elem_of_In.
  - intros Hin. exists name. split; [by apply list_elem_of_In|].
    by apply text_eqb_eq.
Qed.

Lemma find_elem {A} (f : A → bool) (l : list A) (x : A) :
  List.find f l = Some x → x ∈ l ∧ f x = true.
Proof.
  intros Hf. apply find_some in Hf as [Hin Hfx].
  split; [by apply list_elem_of_In|done].
Qed.

Lemma get_column_elem (name : text) (d : DataFrame) :
  name ∈ col_names d → (name, get_column name d) ∈ columns d.
Proof.
  unfold col_names, get_column. induction (columns d) as [|[n s] cols IH]; simpl.
  - by intros ?%elem_of_nil.
  - destruct (text_eqb name n) eqn:Heq.
    + apply text_eqb_eq in Heq as ->. intros _. simpl. left.
    + intros [->|Hin]%elem_of_cons.
      * assert (text_eqb n n = true) by by apply text_eqb_eq. congruence.
      * right. by apply IH.
Qed.

Lemma get_column_length (name : text) (d : DataFrame) :
  aligned d → name ∈ col_names d → length (get_column name d) = df_len d.
Proof.
  intros Hal Hin. apply get_column_elem in Hin.
  unfold aligned in Hal. rewrite Forall_forall in Hal. by apply Hal in Hin.
Qed.

Lemma assign_elem name series cols c :
  c ∈ assign name series cols → c = (name, series) ∨ c ∈ cols.
Proof.
  induction cols as [|c0 cols IH]; simpl.
  - intros ->%list_elem_of_singleton. by left.
  - destruct (text_eqb name c0.1).
    + intros [->|Hin]%elem_of_cons; [by left|]. right. by right.
    + intros [->|Hin]%elem_of_cons; [right; left|].
      destruct (IH Hin) as [->|?]; [by left|]. right. by right.
Qed.

Lemma rows_kept_refl d : aligned d → rows_kept d d.
Proof. intros Hal. repeat split; [done|]. intros c Hc. right. by exists c. Qed.

Lemma rows_kept_set_column d d1 name series :
  rows_kept d d1 → name ∈ derived_columns → length series = df_len d1 →
  rows_kept d (set_column name series d1).
Proof.
  intros (Hi & Ha & Hc) Hname Hlen. repeat split; [done| |].
  - unfold aligned, set_column, df_len in *. simpl.
    apply Forall_forall. intros c [->|Hin]%assign_elem; [done|].
    rewrite Forall_forall in Ha. by apply Ha.
  - intros c [->|Hin]%assign_elem; [by left|]. by apply Hc.
Qed.

Lemma col_names_set_column c name series d :
  c ∈ col_names d → c ∈ col_names (set_column name series d).
Proof.
  unfold col_names, set_column. simpl.
  induction (columns d) as [|c0 cols IH]; simpl; [by intros ?%elem_of_nil|].
  destruct (text_eqb name c0.1) eqn:Heq.
  - apply text_eqb_eq in Heq as ->. done.
  - intros [->|Hin]%elem_of_cons; [left|right; by apply IH].
Qed.

Lemma rows_kept_set_scalar d d1 name v :
  rows_kept d d1 → name ∈ derived_columns →
  rows_kept d (set_scalar name v d1).
Proof. intros. apply rows_kept_set_column; [done..|]. apply length_replicate. Qed.

Lemma rows_kept_drop_columns d d1 names :
  rows_kept d d1 → rows_kept d (drop_columns names d1).
Proof.
  intros (Hi & Ha & Hc). repeat split; [done| |].
  - unfold aligned, drop_columns, df_len in *. simpl.
    apply Forall_forall. intros c [Hin _]%list_elem_of_In%filter_In.
    rewrite Forall_forall in Ha. by apply Ha, list_elem_of_In.
  - intros c [Hin _]%list_elem_of_In%filter_In. by apply Hc, list_elem_of_In.
Qed.

Lemma rows_kept_rename_columns d f :
  aligned d → rows_kept d (rename_columns f d).
Proof.
  intros Ha. repeat split; [|].
  - unfold aligned, rename_columns, df_len in *. simpl.
    by apply Forall_map.
  - intros c (c0 & -> & Hin)%list_elem_of_fmap. right. by exists c0.
Qed.

(** Membership in [derived_columns], by evaluation. *)
Ltac in_derived := apply (bool_decide_unpack _); vm_compute; reflexivity.

Lemma rows_kept_len d d' : rows_kept d d' → df_len d' = df_len d.
Proof. intros (Hi & _). unfold df_len. by rewrite Hi. Qed.

(** Reading the table at the start of a handler. *)
Lemma load_df_bind {A} (f : DataFrame → handler A) ctx :
  (load_df ≫= f) ctx =
    match df ctx with
    | Some d => f d ctx
    | None => (Raise (ValueError (u "DataFrame is not loaded")), ctx)
    end.
Proof.
  unfold load_df, get_df, mbind, handler_bind, raise, mret, handler_ret.
  by destruct (df ctx).
Qed.

Lemma set_df_eq d ctx ctx' :
  set_df d ctx = (Return (), ctx') → df ctx' = Some d.
Proof. unfold set_df. by intros [= <-]. Qed.

Section Stages.
Context `{Unicode}.

Lemma clean_rows_kept ctx ctx' d :
  df ctx = Some d → aligned d →
  CleanColumnsHandler_handle ctx = (Return (), ctx') →
  ∃ d', df ctx' = Some d' ∧ rows_kept d d'.
Proof.
  intros Hdf Ha. unfold CleanColumnsHandler_handle.
  rewrite load_df_bind, Hdf. intros Hset%set_df_eq.
  eexists. split; [done|].
  destruct (List.filter _ _).
  - by apply rows_kept_rename_columns.
  - by apply rows_kept_drop_columns, rows_kept_rename_columns.
Qed.

Lemma rows_kept_map_column d d1 name (f : value → value) c :
  rows_kept d d1 → name ∈ derived_columns → c ∈ col_names d1 →
  rows_kept d (set_column name (map f (get_column c d1)) d1).
Proof.
  intros H1 Hname Hc. apply rows_kept_set_column; [done..|].
  rewrite length_map. apply get_column_length; [apply H1|done].
Qed.

Lemma rows_kept_optional_column d d1 name (f : value → value) v col :
  rows_kept d d1 → name ∈ derived_columns →
  (∀ c, col = Some c → c ∈ col_names d1) →
  rows_kept d match col with
              | None => set_scalar name v d1
              | Some c => set_column name (map f (get_column c d1)) d1
              end.
Proof.
  intros H1 Hname Hcol. destruct col as [c|].
  - apply rows_kept_map_column; auto.
  - by apply rows_kept_set_scalar.
Qed.

Lemma job_rows_kept ctx ctx' d :
  df ctx = Some d → aligned d →
  JobCategoryHandler_handle ctx = (Return (), ctx') →
  ∃ d', df ctx' = Some d' ∧ rows_kept d d'.
Proof.
  intros Hdf Ha. unfold JobCategoryHandler_handle.
  rewrite load_df_bind, Hdf. intros Hset%set_df_eq.
  eexists. split; [done|].
  assert (H1 : ∀ col, (∀ c, col = Some c → c ∈ col_names d) →
    rows_kept d match col with
                | None => set_scalar (u "job_category") (VStr (u "Не указано")) d
                | Some c =>
                  set_column (u "job_category")
                    (map (fun v => VStr (categorize_job_title v)) (get_column c d)) d
                end).
  { intros col Hcol.
    apply (rows_kept_optional_column d d _ (fun v => VStr (categorize_job_title v)));
      [by apply rows_kept_refl|in_derived|done]. }
  assert (Hfind : ∀ (f : text → bool) c,
            List.find f (col_names d) = Some c → c ∈ col_names d).
  { intros f c Hc. by apply find_elem in Hc as [? _]. }
  destruct (List.find _ (col_names (drop_columns _ _)));
    repeat apply rows_kept_drop_columns;
    (apply (rows_kept_optional_column d _ _ (fun v => VStr (categorize_job_title v)));
     [apply H1; apply Hfind | in_derived |]);
    intros c Hc%Hfind;
    destruct (List.find _ (col_names d)); by apply col_names_set_column.
Qed.

Lemma education_rows_kept ctx ctx' d :
  df ctx = Some d → aligned d →
  ParseEducationHandler_handle ctx = (Return (), ctx') →
  ∃ d', df ctx' = Some d' ∧ rows_kept d d'.
Proof.
  intros Hdf Ha. unfold ParseEducationHandler_handle.
  rewrite load_df_bind, Hdf.
  destruct (has_column _EDU_COL d) eqn:Hcol; simpl; intros Hset%set_df_eq;
    (eexists; split; [done|]).
  - apply has_column_elem in Hcol.
    apply (rows_kept_map_column _ _ _ parse_year); [|in_derived|].
    + apply (rows_kept_map_column _ _ _ (fun v => VStr (parse_level v)));
        [by apply rows_kept_refl|in_derived|done].
    + by apply col_names_set_column.
  - repeat apply rows_kept_set_scalar; [by apply rows_kept_refl|in_derived..].
Qed.

Lemma location_rows_kept ctx ctx' d :
  df ctx = Some d → aligned d →
  ParseLocationHandler_handle ctx = (Return (), ctx') →
  ∃ d', df ctx' = Some d' ∧ rows_kept d d'.
Proof.
  intros Hdf Ha. unfold ParseLocationHandler_handle.
  rewrite load_df_bind, Hdf.
  destruct (has_column _CITY_COL d) eqn:Hcol; simpl; intros Hset%set_df_eq;
    (eexists; split; [done|]).
  - apply has_column_elem in Hcol.
    apply (rows_kept_map_column _ _ _ (fun v => VBool (parse_trips v)));
      [|in_derived|by repeat apply col_names_set_column].
    apply (rows_kept_map_column _ _ _ (fun v => VBool (parse_relocate v)));
      [|in_derived|by repeat apply col_names_set_column].
    apply (rows_kept_map_column _ _ _ (fun v => VStr (parse_city v)));
      [by apply rows_kept_refl|in_derived|done].
  - repeat apply rows_kept_set_scalar; [by apply rows_kept_refl|in_derived..].
Qed.

(** *** The loop of the salary stage *)

Lemma salary_loop_snoc rates n raw v :
  salary_loop rates n (raw ++ [v]) =
    salary_step rates (salary_loop rates n raw) (length raw, v).
Proof.
  unfold salary_loop. rewrite imap_app, foldl_app. simpl.
  by rewrite Nat.add_0_r.
Qed.

Lemma salary_loop_lookup rates n raw i :
  i < n →
  (salary_loop rates n raw).1 !! i = Some (raw !! i ≫= row_target rates)
  ∧ (salary_loop rates n raw).2 !! i
    = Some (from_option (row_currency rates) [] (raw !! i)).
Proof.
  intros Hi. induction raw as [|v raw IH] using rev_ind.
  - unfold salary_loop. simpl. by rewrite !lookup_replicate_2.
  - rewrite salary_loop_snoc. destruct IH as [IH1 IH2].
    unfold salary_step, row_target, row_currency. simpl.
    destruct (decide (i = length raw)) as [->|Hne].
    + rewrite list_lookup_middle by done. simpl.
      destruct (row_result rates v) as [[cur rub]|]; simpl.
      * pose proof (lookup_lt_Some _ _ _ IH1).
        pose proof (lookup_lt_Some _ _ _ IH2).
        split; by apply list_lookup_insert_eq.
      * rewrite (lookup_ge_None_2 raw) in IH1, IH2 by done. done.
    + assert (Hlk : (raw ++ [v]) !! i = raw !! i).
      { destruct (decide (i < length raw)).
        - by apply lookup_app_l.
        - rewrite !lookup_ge_None_2; [done|lia|].
          rewrite length_app. simpl. lia. }
      rewrite Hlk.
      destruct (row_result rates v) as [[cur rub]|]; simpl; [|done].
      by rewrite !list_lookup_insert_ne.
Qed.

Lemma salary_loop_length (rates : gmap text Q) n raw :
  length (salary_loop rates n raw).1 = n ∧ length (salary_loop rates n raw).2 = n.
Proof.
  induction raw as [|v raw IH] using rev_ind.
  - unfold salary_loop. simpl. by rewrite !length_replicate.
  - rewrite salary_loop_snoc. unfold salary_step.
    destruct (row_result rates _) as [[cur rub]|]; simpl; [|done].
    by rewrite !length_insert.
Qed.

(** On a column with one cell per row the loop maps the rows to their
    results. *)
Lemma salary_loop_map (rates : gmap text Q) raw :
  salary_loop rates (length raw) raw
  = (map (row_target rates) raw, map (row_currency rates) raw).
Proof.
  destruct (salary_loop_length rates (length raw) raw) as [Hl1 Hl2].
  apply injective_projections; apply list_eq; intros i; simpl;
    rewrite list_lookup_fmap;
    (destruct (decide (i < length raw)) as [Hi|Hi];
     [ destruct (salary_loop_lookup rates _ raw i Hi) as [E1 E2];
       first [rewrite E1 | rewrite E2];
       destruct (lookup_lt_is_Some_2 raw i Hi) as [v ->]; done
     | rewrite !lookup_ge_None_2; [done|lia..] ]).
Qed.

Variable load_fx_rates : text → outcome FxRates.

(** The run of the salary stage on a table that has the salary column,
    with a provider that returns. *)
Lemma salary_handle_run ctx d fx :
  df ctx = Some d → has_column _SALARY_COL d = true →
  load_fx_rates (output_dir ctx) = Return fx →
  ParseSalaryHandler_handle load_fx_rates ctx =
    let st := salary_loop (rates fx) (df_len d) (get_column _SALARY_COL d) in
    let d' := set_column (u "target_salary_rub") (map float_cell st.1)
                (set_column (u "salary_currency") (map VStr st.2) d) in
    let nan_mask := nan_mask_of st.1 in
    let dg := <["rows_with_nan_target" := DInt (mask_sum nan_mask)]>
                (<["fx_rates_source" := DStr (source fx)]> (diag ctx)) in
    let dg := if existsb id nan_mask
              then <["nan_target_examples" :=
                       DFrame (head 20 (loc nan_mask
                                 [_SALARY_COL; u "salary_currency"] d'))]> dg
              else dg in
    (Return (),
     {| df := Some d'; output_dir := output_dir ctx;
        diag := <["target_zeros" := DInt (mask_sum (zero_mask_of st.1))]> dg |}).
Proof.
  intros Hdf Hcol Hfx. unfold ParseSalaryHandler_handle.
  rewrite load_df_bind, Hdf, Hcol. cbn [negb].
  unfold mbind, handler_bind, get_output_dir, call. rewrite Hfx.
  unfold set_diag, set_df, mret, handler_ret. cbn [df output_dir diag].
  destruct (salary_loop _ _ _) as [target curr_out]. cbn [fst snd].
  by destruct (existsb id (nan_mask_of target)).
Qed.

Lemma salary_handle_returns ctx ctx' d :
  df ctx = Some d →
  ParseSalaryHandler_handle load_fx_rates ctx = (Return (), ctx') →
  has_column _SALARY_COL d = true
  ∧ ∃ fx, load_fx_rates (output_dir ctx) = Return fx.
Proof.
  intros Hdf. unfold ParseSalaryHandler_handle.
  rewrite load_df_bind, Hdf.
  destruct (has_column _SALARY_COL d); cbn [negb]; [|done].
  unfold mbind, handler_bind, get_output_dir, call.
  destruct (load_fx_rates _) as [fx|e]; [|done]. eauto.
Qed.

Lemma salary_rows_kept ctx ctx' d :
  df ctx = Some d → aligned d →
  ParseSalaryHandler_handle load_fx_rates ctx = (Return (), ctx') →
  ∃ d', df ctx' = Some d' ∧ rows_kept d d'.
Proof.
  intros Hdf Ha Hrun.
  destruct (salary_handle_returns _ _ _ Hdf Hrun) as (Hcol & fx & Hfx).
  rewrite (salary_handle_run _ _ _ Hdf Hcol Hfx) in Hrun.
  cbv zeta in Hrun. injection Hrun as <-. cbn [df].
  eexists. split; [done|].
  destruct (salary_loop_length (rates fx) (df_len d) (get_column _SALARY_COL d))
    as [Hl1 Hl2].
  apply rows_kept_set_column; [|in_derived|].
  - apply rows_kept_set_column; [by apply rows_kept_refl|in_derived|].
    by rewrite length_map.
  - by rewrite length_map.
Qed.

End Stages.

(** ** The rows of the salary stage *)

Lemma get_column_set_eq name series d :
  get_column name (set_column name series d) = series.
Proof.
  unfold get_column, set_column. simpl.
  assert (Hn : text_eqb name name = true) by by apply text_eqb_eq.
  induction (columns d) as [|c cols IH]; simpl.
  - by rewrite Hn.
  - destruct (text_eqb name c.1) eqn:Heq; simpl.
    + by rewrite Hn.
    + by rewrite Heq.
Qed.

Lemma get_column_set_ne name name' series d :
  name ≠ name' →
  get_column name (set_column name' series d) = get_column name d.
Proof.
  intros Hne. unfold get_column, set_column. simpl.
  assert (Hn : text_eqb name name' = false).
  { apply not_true_is_false. by rewrite text_eqb_eq. }
  induction (columns d) as [|c cols IH]; simpl.
  - by rewrite Hn.
  - destruct (text_eqb name' c.1) eqn:Heq; simpl.
    + apply text_eqb_eq in Heq as <-. by rewrite Hn.
    + destruct (text_eqb name c.1); [done|]. apply IH.
Qed.

Lemma get_column_lookup_has name d i x :
  get_column name d !! i = Some x → has_column name d = true.
Proof.
  unfold get_column. destruct (List.find _ _) as [c|] eqn:Hc; [|done].
  intros _. apply find_elem in Hc as [Hin Heq]. apply text_eqb_eq in Heq as ->.
  apply has_column_elem. unfold col_names. apply list_elem_of_fmap. eauto.
Qed.

Lemma salary_names_distinct :
  u "salary_currency" ≠ u "target_salary_rub"
  ∧ _SALARY_COL ≠ u "salary_currency"
  ∧ _SALARY_COL ≠ u "target_salary_rub".
Proof. repeat split; vm_compute; discriminate. Qed.

Section SalaryRows.
Context `{Unicode}.

Lemma row_result_negotiable (rates : gmap text Q) v :
  is_negotiable (safe_lower (VStr (normalize_spaces v))) = true →
  row_result rates (VStr v) = None.
Proof.
  intros Hneg. unfold row_result, row_rub, row_amount.
  destruct (is_empty (normalize_spaces v)); [done|]. by rewrite Hneg.
Qed.

Lemma detect_currency_code s c :
  _detect_currency s = Some c → c ∈ currency_codes.
Proof.
  unfold _detect_currency, currency_codes. intros Hc.
  repeat case_match; simplify_eq; set_solver.
Qed.

Lemma currency_codes_nonempty c : c ∈ currency_codes → c ≠ [].
Proof.
  unfold currency_codes. rewrite !elem_of_cons, elem_of_nil.
  intros Hc Hnil. subst c. vm_compute in Hc.
  repeat destruct Hc as [Hc|Hc]; done.
Qed.

(** The currency that lines 120-122 give to a row is a code. *)
Lemma row_amount_currency v t cur amount :
  row_amount v = Some (t, cur, amount) → cur ∈ currency_codes.
Proof.
  unfold row_amount. destruct v as [v| | |]; [|done..].
  destruct (is_empty _); [done|]. destruct (is_negotiable _); [done|].
  destruct (resolve_amount _); simpl; [|done]. intros [= <- <- <-].
  destruct (_detect_currency _) as [c|] eqn:Hc; simpl.
  - by eapply detect_currency_code.
  - unfold currency_codes. left.
Qed.

Lemma row_result_currency (rates : gmap text Q) v cur rub :
  row_result rates v = Some (cur, rub) →
  cur ∈ currency_codes ∧ Qle_bool rub 0 = false.
Proof.
  unfold row_result, row_rub.
  destruct (row_amount v) as [[[t c] a]|] eqn:Ha; [|done]. simpl.
  destruct (rates !! c); [|done]. simpl.
  destruct (Qle_bool _ 0) eqn:Hle; [done|]. intros [= <- <-].
  split; [|done]. by eapply row_amount_currency.
Qed.

Variable load_fx_rates : text → outcome FxRates.

(** What the salary stage returns, column by column. *)
Lemma salary_handle_columns ctx d fx :
  df ctx = Some d → aligned d → has_column _SALARY_COL d = true →
  load_fx_rates (output_dir ctx) = Return fx →
  ∃ ctx' d',
    ParseSalaryHandler_handle load_fx_rates ctx = (Return (), ctx')
    ∧ df ctx' = Some d'
    ∧ index d' = index d
    ∧ get_column _SALARY_COL d' = get_column _SALARY_COL d
    ∧ get_column (u "target_salary_rub") d'
      = map (fun v => float_cell (row_target (rates fx) v))
            (get_column _SALARY_COL d)
    ∧ get_column (u "salary_currency") d'
      = map (fun v => VStr (row_currency (rates fx) v))
            (get_column _SALARY_COL d).
Proof.
  intros Hdf Ha Hcol Hfx.
  rewrite (salary_handle_run _ _ _ _ Hdf Hcol Hfx). cbv zeta.
  rewrite <- (get_column_length _SALARY_COL d Ha) by by apply has_column_elem.
  rewrite salary_loop_map. cbn [fst snd].
  destruct salary_names_distinct as (H1 & H2 & H3).
  eexists _, _. split; [reflexivity|]. split; [reflexivity|].
  split; [reflexivity|].
  rewrite !get_column_set_eq, !get_column_set_ne, !get_column_set_eq by done.
  by rewrite !map_map.
Qed.

End SalaryRows.

(** C1. Every stage returns a table with the rows of the table it
    received, in the same order: the row labels are the same list, every
    column has one cell per row, and each column other than the derived
    attributes carries the cells of an input column.  Stages only add,
    drop or rewrite columns. *)
Theorem stages_keep_rows (U : Unicode)
    (load_fx_rates : text → outcome FxRates) (h : handler unit)
    (ctx ctx' : PipelineContext) (d : DataFrame) :
  h ∈ stages load_fx_rates →
  df ctx = Some d → aligned d →
  h ctx = (Return (), ctx') →
  ∃ d', df ctx' = Some d' ∧ rows_kept d d' ∧ df_len d' = df_len d.
Proof.
  intros Hh Hdf Ha Hrun.
  assert (∃ d', df ctx' = Some d' ∧ rows_kept d d') as (d' & Hd' & Hk).
  { unfold stages in Hh. rewrite !elem_of_cons in Hh.
    destruct Hh as [->|[->|[->|[->|[->|Hnil]]]]].
    - by eapply clean_rows_kept.
    - by eapply job_rows_kept.
    - by eapply education_rows_kept.
    - by eapply location_rows_kept.
    - by eapply salary_rows_kept.
    - by apply elem_of_nil in Hnil. }
  exists d'. split; [done|]. split; [done|]. by apply rows_kept_len.
Qed.

Lemma stages_keep_rows_witness :
  aligned sample_table
  ∧ ∃ d', rows_kept sample_table d'
          ∧ (ParseSalaryHandler_handle sample_fx sample_ctx).1 = Return ().
Proof.
  assert (Ha : aligned sample_table) by (repeat constructor).
  split; [exact Ha|].
  destruct (stages_keep_rows py_unicode sample_fx
              (ParseSalaryHandler_handle sample_fx) sample_ctx
              (ParseSalaryHandler_handle sample_fx sample_ctx).2 sample_table)
    as (d' & _ & Hk & _).
  - unfold stages. do 4 apply list_elem_of_further. apply list_elem_of_here.
  - reflexivity.
  - exact Ha.
  - vm_compute. reflexivity.
  - exists d'. split; [exact Hk|]. vm_compute. reflexivity.
Defined.

(** C2. A row whose salary text carries a negotiable marker ("договор",
    "по договор" or "negotiable" in the normalized lower-case text) gets
    a null [target_salary_rub] and an empty [salary_currency], whatever
    numbers or currency markers the text holds besides. *)
Theorem salary_negotiable_is_null (U : Unicode)
    (load_fx_rates : text → outcome FxRates)
    (ctx : PipelineContext) (d : DataFrame) (fx : FxRates)
    (i : nat) (v : text) :
  df ctx = Some d → aligned d →
  load_fx_rates (output_dir ctx) = Return fx →
  get_column _SALARY_COL d !! i = Some (VStr v) →
  is_negotiable (safe_lower (VStr (normalize_spaces v))) = true →
  ∃ ctx' d',
    ParseSalaryHandler_handle load_fx_rates ctx = (Return (), ctx')
    ∧ df ctx' = Some d'
    ∧ get_column (u "target_salary_rub") d' !! i = Some VNaN
    ∧ get_column (u "salary_currency") d' !! i = Some (VStr []).
Proof.
  intros Hdf Ha Hfx Hi Hneg.
  pose proof (get_column_lookup_has _ _ _ _ Hi) as Hcol.
  destruct (salary_handle_columns load_fx_rates ctx d fx Hdf Ha Hcol Hfx)
    as (ctx' & d' & Hrun & Hd' & _ & _ & Ht & Hc).
  exists ctx', d'. split; [done|]. split; [done|].
  rewrite Ht, Hc, !list_lookup_fmap, Hi. simpl.
  unfold row_target, row_currency.
  by rewrite (row_result_negotiable _ _ Hneg).
Qed.

Lemma salary_negotiable_is_null_witness :
  is_negotiable (safe_lower (VStr (normalize_spaces
      (u "З/П по договорённости, от 100 000 руб.")))) = true
  ∧ ∃ ctx' d',
      ParseSalaryHandler_handle sample_fx sample_ctx = (Return (), ctx')
      ∧ df ctx' = Some d'
      ∧ get_column (u "target_salary_rub") d' !! 2 = Some VNaN
      ∧ get_column (u "salary_currency") d' !! 2 = Some (VStr []).
Proof.
  split; [vm_compute; reflexivity|].
  eapply (salary_negotiable_is_null py_unicode sample_fx sample_ctx
            sample_table sample_rates).
  - reflexivity.
  - repeat constructor.
  - reflexivity.
  - vm_compute. reflexivity.
  - vm_compute. reflexivity.
Defined.

(** C9. After the salary stage, in every row, [salary_currency] is
    non-empty exactly when [target_salary_rub] is non-null, and it is then
    one of the currency codes: a row whose conversion failed has an empty
    [salary_currency], whatever currency was detected in it. *)
Theorem salary_currency_iff_target (U : Unicode)
    (load_fx_rates : text → outcome FxRates)
    (ctx : PipelineContext) (d : DataFrame) (fx : FxRates) (i : nat) :
  df ctx = Some d → aligned d → has_column _SALARY_COL d = true →
  load_fx_rates (output_dir ctx) = Return fx →
  i < df_len d →
  ∃ ctx' d' cur x,
    ParseSalaryHandler_handle load_fx_rates ctx = (Return (), ctx')
    ∧ df ctx' = Some d'
    ∧ get_column (u "salary_currency") d' !! i = Some (VStr cur)
    ∧ get_column (u "target_salary_rub") d' !! i = Some x
    ∧ (cur ≠ [] ↔ x ≠ VNaN)
    ∧ (cur ≠ [] → cur ∈ currency_codes).
Proof.
  intros Hdf Ha Hcol Hfx Hi.
  destruct (salary_handle_columns load_fx_rates ctx d fx Hdf Ha Hcol Hfx)
    as (ctx' & d' & Hrun & Hd' & _ & _ & Ht & Hc).
  rewrite <- (get_column_length _SALARY_COL d Ha) in Hi
    by by apply has_column_elem.
  destruct (lookup_lt_is_Some_2 _ _ Hi) as [v Hv].
  exists ctx', d', (row_currency (rates fx) v),
    (float_cell (row_target (rates fx) v)).
  split; [done|]. split; [done|].
  rewrite Ht, Hc, !list_lookup_fmap, Hv. simpl.
  split; [done|]. split; [done|].
  unfold row_currency, row_target.
  destruct (row_result (rates fx) v) as [[cur rub]|] eqn:Hres; simpl.
  - apply row_result_currency in Hres as [Hcode _].
    pose proof (currency_codes_nonempty _ Hcode). by repeat split.
  - by repeat split.
Qed.

Lemma salary_currency_iff_target_witness :
  3 < df_len sample_table
  ∧ ∃ ctx' d' cur x,
      ParseSalaryHandler_handle sample_fx sample_ctx = (Return (), ctx')
      ∧ df ctx' = Some d'
      ∧ get_column (u "salary_currency") d' !! 3 = Some (VStr cur)
      ∧ get_column (u "target_salary_rub") d' !! 3 = Some x
      ∧ (cur ≠ [] ↔ x ≠ VNaN)
      ∧ (cur ≠ [] → cur ∈ currency_codes).
Proof.
  split; [vm_compute; lia|].
  apply (salary_currency_iff_target py_unicode sample_fx sample_ctx
           sample_table sample_rates).
  - reflexivity.
  - repeat constructor.
  - vm_compute. reflexivity.
  - reflexivity.
  - vm_compute. lia.
Defined.

Section Amount.
Context `{Unicode}.

(** A row that is a non-empty text without negotiable marker reaches the
    amount resolution of its numbers. *)
Lemma row_amount_resolve (v : text) :
  is_empty (normalize_spaces v) = false →
  is_negotiable (safe_lower (VStr (normalize_spaces v))) = false →
  row_amount (VStr v) =
    amount ← resolve_amount (_extract_numbers (normalize_spaces v));
    Some (safe_lower (VStr (normalize_spaces v)),
          default (u "RUB") (_detect_currency (normalize_spaces v)), amount).
Proof.
  intros He Hn. unfold row_amount. cbv zeta. rewrite He, Hn. reflexivity.
Qed.

Lemma row_amount_inv (v : value) t cur amount :
  row_amount v = Some (t, cur, amount) →
  ∃ s, v = VStr s
       ∧ t = safe_lower (VStr (normalize_spaces s))
       ∧ resolve_amount (_extract_numbers (normalize_spaces s)) = Some amount.
Proof.
  unfold row_amount. destruct v as [s| | |]; [|done..].
  destruct (is_empty _); [done|]. destruct (is_negotiable _); [done|].
  destruct (resolve_amount _) as [a|] eqn:Hres; simpl; [|done].
  intros [= <- <- <-]. by exists s.
Qed.

End Amount.

(** C3. With at least two numbers extracted from the salary text, the
    amount before scaling is the mean of the first two and the further
    numbers play no part; with exactly one number the amount is that
    number.  "от 80 000 до 100 000 руб." gives the numbers 80000 and
    100000 and the amount 90000; the no-break space separates thousands
    as the plain space does. *)
Theorem salary_amount_resolution :
  (∀ (U : Unicode) (v : text) (n0 n1 : Z) (rest : list Z),
     is_empty (normalize_spaces v) = false →
     is_negotiable (safe_lower (VStr (normalize_spaces v))) = false →
     _extract_numbers (normalize_spaces v) = n0 :: n1 :: rest →
     ∃ t cur, row_amount (VStr v) = Some (t, cur, (inject_Z (n0 + n1) / 2)%Q))
  ∧ (∀ (U : Unicode) (v : text) (n0 : Z),
       is_empty (normalize_spaces v) = false →
       is_negotiable (safe_lower (VStr (normalize_spaces v))) = false →
       _extract_numbers (normalize_spaces v) = [n0] →
       ∃ t cur, row_amount (VStr v) = Some (t, cur, inject_Z n0))
  ∧ (∀ (U : Unicode) (v : value) (t cur : text) (amount : Q),
       row_amount v = Some (t, cur, amount) →
       ∃ s n0 rest,
         v = VStr s ∧ _extract_numbers (normalize_spaces s) = n0 :: rest
         ∧ amount = match rest with
                    | n1 :: _ => (inject_Z (n0 + n1) / 2)%Q
                    | [] => inject_Z n0
                    end)
  ∧ (_extract_numbers (u "от 80 000 до 100 000 руб.") = [80000; 100000]%Z
     ∧ _extract_numbers (u "80" ++ [NBSP] ++ u "000-100" ++ [NBSP] ++ u "000")
       = [80000; 100000]%Z
     ∧ ∃ t amount,
         row_amount (VStr (u "от 80 000 до 100 000 руб."))
         = Some (t, u "RUB", amount)
         ∧ (amount == 90000)%Q).
Proof.
  split; [|split; [|split]].
  - intros U v n0 n1 rest He Hn Hnums.
    rewrite (row_amount_resolve v He Hn), Hnums. simpl. eauto.
  - intros U v n0 He Hn Hnums.
    rewrite (row_amount_resolve v He Hn), Hnums. simpl. eauto.
  - intros U v t cur amount Hrow.
    destruct (row_amount_inv _ _ _ _ Hrow) as (s & -> & _ & Hres).
    destruct (_extract_numbers (normalize_spaces s)) as [|n0 rest] eqn:Hnums;
      [done|].
    exists s, n0, rest. split; [done|]. split; [done|].
    simpl in Hres. by injection Hres as <-.
  - split; [by vm_compute|]. split; [by vm_compute|].
    eexists _, _. split; [vm_compute; reflexivity|]. reflexivity.
Qed.

Lemma salary_amount_resolution_witness :
  _extract_numbers (normalize_spaces (u "150 000 - 200 000 - 900 000 руб"))
  = [150000; 200000; 900000]%Z
  ∧ ∃ t cur,
      row_amount (VStr (u "150 000 - 200 000 - 900 000 руб"))
      = Some (t, cur, (inject_Z (150000 + 200000) / 2)%Q).
Proof.
  split; [vm_compute; reflexivity|].
  apply (proj1 salary_amount_resolution py_unicode _ _ _ [900000%Z]);
    vm_compute; reflexivity.
Defined.

(** C5. The salary stage raises when the context has no table, and when
    the table has no "ЗП" column: it leaves the context as it was (no
    column, no diagnostic is written, no default value is put in place),
    and nothing that follows the stage runs. *)
Theorem salary_missing_column_is_fatal (U : Unicode)
    (load_fx_rates : text → outcome FxRates) (ctx : PipelineContext) :
  (df ctx = None →
   ParseSalaryHandler_handle load_fx_rates ctx
   = (Raise (ValueError (u "DataFrame is not loaded")), ctx))
  ∧ (∀ d, df ctx = Some d → has_column _SALARY_COL d = false →
       ParseSalaryHandler_handle load_fx_rates ctx
       = (Raise (ValueError (u "Required target column 'ЗП' not found")), ctx)
       ∧ ∀ (A : Type) (next : unit → handler A),
           (ParseSalaryHandler_handle load_fx_rates ≫= next) ctx
           = (Raise (ValueError (u "Required target column 'ЗП' not found")),
              ctx)).
Proof.
  split.
  - intros Hdf. unfold ParseSalaryHandler_handle.
    by rewrite load_df_bind, Hdf.
  - intros d Hdf Hcol.
    assert (Hrun : ParseSalaryHandler_handle load_fx_rates ctx
      = (Raise (ValueError (u "Required target column 'ЗП' not found")), ctx)).
    { unfold ParseSalaryHandler_handle. by rewrite load_df_bind, Hdf, Hcol. }
    split; [done|]. intros A next.
    unfold mbind at 1, handler_bind at 1. by rewrite Hrun.
Qed.

Lemma salary_missing_column_is_fatal_witness :
  has_column _SALARY_COL (drop_columns [_SALARY_COL] sample_table) = false
  ∧ ParseSalaryHandler_handle sample_fx
      {| df := Some (drop_columns [_SALARY_COL] sample_table);
         output_dir := u "out"; diag := ∅ |}
    = (Raise (ValueError (u "Required target column 'ЗП' not found")),
       {| df := Some (drop_columns [_SALARY_COL] sample_table);
          output_dir := u "out"; diag := ∅ |}).
Proof.
  split; [vm_compute; reflexivity|].
  apply (proj2 (salary_missing_column_is_fatal py_unicode sample_fx _)
           (drop_columns [_SALARY_COL] sample_table));
    [reflexivity | vm_compute; reflexivity].
Defined.

(** C4, as the code has it.  The amount is multiplied by 1000 exactly
    when the normalized lower-case text contains "тыс" or the letter "k",
    wherever the letter stands (after the number or inside any word or
    currency code), and is left as it is otherwise; the scaled amount is
    then converted by the rate.  "60k USD" gives the amount 60, scaled to
    60000 and converted by the USD rate. *)
Theorem salary_scale_marker :
  (∀ (U : Unicode) (t a b : text) (amount : Q),
     t = a ++ u "k" ++ b ∨ t = a ++ u "тыс" ++ b →
     scale_amount t amount = (amount * 1000)%Q)
  ∧ (∀ (U : Unicode) (t : text) (amount : Q),
       contains (u "k") t = false → contains (u "тыс") t = false →
       scale_amount t amount = amount)
  ∧ (∀ (U : Unicode) (rates : gmap text Q) (v : value) (t cur : text)
       (amount : Q),
       row_amount v = Some (t, cur, amount) →
       row_rub rates v =
         rate ← rates !! cur; Some (cur, (scale_amount t amount * rate)%Q))
  ∧ (∃ t, row_amount (VStr (u "60k USD")) = Some (t, u "USD", inject_Z 60)
          ∧ (scale_amount t (inject_Z 60) == 60000)%Q
          ∧ ∀ (rates : gmap text Q) (rate : Q),
              rates !! u "USD" = Some rate →
              row_rub rates (VStr (u "60k USD"))
              = Some (u "USD", (inject_Z 60 * 1000 * rate)%Q)).
Proof.
  split; [|split; [|split]].
  - intros U t a b amount Ht. unfold scale_amount.
    assert (contains (u "тыс") t || contains (u "k") t = true) as ->; [|done].
    apply orb_true_iff. destruct Ht as [->| ->]; [right|left];
      apply contains_spec; eauto.
  - intros U t amount Hk Ht. unfold scale_amount. by rewrite Hk, Ht.
  - intros U rates v t cur amount Hrow. unfold row_rub. by rewrite Hrow.
  - eexists. split; [vm_compute; reflexivity|]. split; [reflexivity|].
    intros rates rate Hrate. unfold row_rub.
    assert (row_amount (VStr (u "60k USD"))
            = Some (u "60k usd", u "USD", inject_Z 60)) as ->
      by (vm_compute; reflexivity).
    simpl. rewrite Hrate. simpl. do 3 f_equal.
Qed.

Lemma salary_scale_marker_witness :
  u "500000 kzt" = u "500000 " ++ u "k" ++ u "zt"
  ∧ scale_amount (u "500000 kzt") (inject_Z 500000)
    = (inject_Z 500000 * 1000)%Q.
Proof.
  split; [vm_compute; reflexivity|].
  apply (proj1 salary_scale_marker py_unicode _ (u "500000 ") (u "zt")).
  left. vm_compute. reflexivity.
Defined.

(** C4 as stated fails: "1000 USD per week" has no "тыс" and no "k"
    suffix on its number, and its amount is multiplied by 1000 all the
    same, for the "k" of "week". *)
Lemma salary_scale_k_suffix_counterexample :
  ∃ t, row_amount (VStr (u "1000 USD per week")) = Some (t, u "USD", inject_Z 1000)
       ∧ contains (u "тыс") t = false
       ∧ k_suffix t = false
       ∧ scale_amount t (inject_Z 1000) = (inject_Z 1000 * 1000)%Q
       ∧ ¬ (scale_amount t (inject_Z 1000) == inject_Z 1000)%Q.
Proof.
  eexists. split; [vm_compute; reflexivity|].
  split; [vm_compute; reflexivity|]. split; [vm_compute; reflexivity|].
  split; [vm_compute; reflexivity|]. vm_compute. discriminate.
Qed.

(** ** The diagnostics of the salary stage *)

Lemma select_map {A B} (p : A → bool) (g : A → B) (l : list A) :
  select (map p l) (map g l) = map g (List.filter p l).
Proof.
  induction l as [|x l IH]; simpl; [done|].
  destruct (p x); simpl; by rewrite IH.
Qed.

Lemma select_map_id {A} (p : A → bool) (l : list A) :
  select (map p l) l = List.filter p l.
Proof.
  induction l as [|x l IH]; simpl; [done|].
  destruct (p x); simpl; by rewrite IH.
Qed.

Lemma mask_sum_map {A} (p : A → bool) (l : list A) :
  mask_sum (map p l) = Z.of_nat (length (List.filter p l)).
Proof.
  unfold mask_sum. f_equal.
  induction l as [|x l IH]; simpl; [done|].
  destruct (p x); simpl; by rewrite IH.
Qed.

Lemma existsb_mask {A} (p : A → bool) (l : list A) :
  existsb id (map p l) = match List.filter p l with [] => false | _ => true end.
Proof.
  induction l as [|x l IH]; simpl; [done|]. by destruct (p x).
Qed.

Lemma filter_none {A} (p : A → bool) (l : list A) :
  (∀ x, p x = false) → List.filter p l = [].
Proof.
  intros Hp. induction l as [|x l IH]; simpl; [done|]. by rewrite Hp.
Qed.

Lemma nan_mask_rows `{Unicode} (rates : gmap text Q) raw :
  nan_mask_of (map (row_target rates) raw) = map (null_row rates) raw.
Proof. unfold nan_mask_of. by rewrite map_map. Qed.

(** A stored target is positive, so the mask [target == 0] is empty. *)
Lemma zero_mask_rows `{Unicode} (rates : gmap text Q) raw :
  mask_sum (zero_mask_of (map (row_target rates) raw)) = 0%Z.
Proof.
  unfold zero_mask_of. rewrite map_map, mask_sum_map.
  rewrite filter_none; [done|]. intros v. unfold row_target.
  destruct (row_result rates v) as [[cur rub]|] eqn:Hres; simpl; [|done].
  apply row_result_currency in Hres as [_ Hle].
  destruct (Qeq_bool rub 0) eqn:Heq; [|done].
  apply Qeq_bool_iff in Heq. exfalso.
  apply not_true_iff_false in Hle. apply Hle, Qle_bool_iff.
  rewrite Heq. apply Qle_refl.
Qed.

(** A null row has an empty [salary_currency]. *)
Lemma null_row_currency `{Unicode} (rates : gmap text Q) v :
  null_row rates v = true → row_currency rates v = [].
Proof.
  unfold null_row, row_target, row_currency.
  by destruct (row_result rates v).
Qed.

Lemma null_rows_currency `{Unicode} (rates : gmap text Q) raw :
  map (fun v => VStr (row_currency rates v)) (List.filter (null_row rates) raw)
  = map (fun _ => VStr []) (List.filter (null_row rates) raw).
Proof.
  apply map_ext_in. intros v [_ Hv]%filter_In.
  by rewrite null_row_currency.
Qed.

(** C6, as the code has it.  After the salary stage the diagnostics hold
    the number of rows with a null target; when there is such a row, a
    sample of the first null rows, 20 at most, with their "ЗП" cell and
    their [salary_currency] cell, which is empty for each of them; and,
    under [target_zeros], the number of stored targets equal to zero,
    which is always 0, the zero results having been rejected before. *)
Theorem salary_diagnostics (U : Unicode)
    (load_fx_rates : text → outcome FxRates)
    (ctx : PipelineContext) (d : DataFrame) (fx : FxRates) :
  df ctx = Some d → aligned d → has_column _SALARY_COL d = true →
  load_fx_rates (output_dir ctx) = Return fx →
  let raw := get_column _SALARY_COL d in
  let nulls := List.filter (null_row (rates fx)) raw in
  ∃ ctx',
    ParseSalaryHandler_handle load_fx_rates ctx = (Return (), ctx')
    ∧ diag ctx' !! "rows_with_nan_target" = Some (DInt (Z.of_nat (length nulls)))
    ∧ diag ctx' !! "target_zeros" = Some (DInt 0)
    ∧ diag ctx' !! "nan_target_examples" =
        match nulls with
        | [] => diag ctx !! "nan_target_examples"
        | _ =>
          Some (DFrame
            {| index := take 20 (select (map (null_row (rates fx)) raw) (index d));
               columns :=
                 [(_SALARY_COL, take 20 nulls);
                  (u "salary_currency", map (fun _ => VStr []) (take 20 nulls))] |})
        end
    ∧ length (take 20 nulls) ≤ 20.
Proof.
  intros Hdf Ha Hcol Hfx raw nulls.
  rewrite (salary_handle_run _ _ _ _ Hdf Hcol Hfx). cbv zeta.
  rewrite <- (get_column_length _SALARY_COL d Ha) by by apply has_column_elem.
  rewrite salary_loop_map. cbn [fst snd]. fold raw.
  rewrite nan_mask_rows, zero_mask_rows, mask_sum_map, existsb_mask.
  fold nulls. eexists. split; [reflexivity|]. cbn [diag].
  split; [|split; [|split]].
  - rewrite lookup_insert_ne by done.
    destruct nulls; [|rewrite lookup_insert_ne by done];
      by rewrite lookup_insert_eq.
  - by rewrite lookup_insert_eq.
  - rewrite lookup_insert_ne by done.
    destruct nulls as [|v0 nulls0] eqn:Hnulls.
    + by rewrite !lookup_insert_ne by done.
    + rewrite lookup_insert_eq. do 2 f_equal.
      destruct salary_names_distinct as (H1 & H2 & H3).
      unfold head, loc. cbn [index columns map set_column fst snd].
      fold (set_column (u "salary_currency")
              (map VStr (map (row_currency (rates fx)) raw)) d).
      fold (set_column (u "target_salary_rub")
              (map float_cell (map (row_target (rates fx)) raw))
              (set_column (u "salary_currency")
                 (map VStr (map (row_currency (rates fx)) raw)) d)).
      rewrite !get_column_set_ne, !get_column_set_eq by done.
      fold raw. rewrite select_map_id, map_map, select_map.
      rewrite null_rows_currency. fold nulls. rewrite Hnulls.
      by rewrite !firstn_map.
  - rewrite length_take. lia.
Qed.

Lemma salary_diagnostics_witness :
  has_column _SALARY_COL sample_table = true
  ∧ ∃ ctx',
      ParseSalaryHandler_handle sample_fx sample_ctx = (Return (), ctx')
      ∧ diag ctx' !! "rows_with_nan_target" = Some (DInt 2)
      ∧ diag ctx' !! "target_zeros" = Some (DInt 0).
Proof.
  split; [vm_compute; reflexivity|].
  destruct (salary_diagnostics py_unicode sample_fx sample_ctx sample_table
              sample_rates)
    as (ctx' & Hrun & Hnan & Hzero & _); [reflexivity|repeat constructor|
      vm_compute; reflexivity|reflexivity|].
  exists ctx'. split; [exact Hrun|]. split; [exact Hnan|exact Hzero].
Defined.

(** C6 as stated fails on the sample table.  Its row "0 руб." converts
    to exactly zero before the rejection of line 140, so the count
    before rejection is 1, while [target_zeros] is 0; and the sample
    shows an empty currency for that row, in which "RUB" was detected. *)
Lemma salary_target_zeros_counterexample :
  pre_rejection_zeros (rates sample_rates) (get_column _SALARY_COL sample_table)
  = 1%Z
  ∧ row_rub (rates sample_rates) (VStr (u "0 руб.")) = Some (u "RUB", (0 * 1)%Q)
  ∧ _detect_currency (u "0 руб.") = Some (u "RUB")
  ∧ ∃ ctx',
      ParseSalaryHandler_handle sample_fx sample_ctx = (Return (), ctx')
      ∧ diag ctx' !! "target_zeros" = Some (DInt 0)
      ∧ diag ctx' !! "nan_target_examples" =
          Some (DFrame
            {| index := [2; 3]%Z;
               columns :=
                 [(u "ЗП", [VStr (u "З/П по договорённости, от 100 000 руб.");
                            VStr (u "0 руб.")]);
                  (u "salary_currency", [VStr []; VStr []])] |}).
Proof.
  split; [vm_compute; reflexivity|]. split; [vm_compute; reflexivity|].
  split; [vm_compute; reflexivity|].
  exists (ParseSalaryHandler_handle sample_fx sample_ctx).2.
  split; [vm_compute; reflexivity|]. split; vm_compute; reflexivity.
Qed.

(** * Further properties of the code *)

(** ** Whitespace normalization *)

Lemma lstrip_snoc (l : text) (c : cp) :
  lstrip (l ++ [c]) =
    match lstrip l with
    | [] => if isspace c then [] else [c]
    | r => r ++ [c]
    end.
Proof.
  induction l as [|a l IH]; simpl; [done|].
  destruct (isspace a); [done|]. done.
Qed.

Lemma rstrip_nil : rstrip [] = [].
Proof. done. Qed.

Lemma rstrip_cons (c : cp) (s : text) :
  rstrip (c :: s) =
    match rstrip s with
    | [] => if isspace c then [] else [c]
    | r => c :: r
    end.
Proof.
  unfold rstrip. rewrite reverse_cons, lstrip_snoc.
  destruct (lstrip (reverse s)) as [|a r] eqn:Hr.
  - rewrite reverse_nil. by destruct (isspace c).
  - rewrite reverse_app, reverse_singleton. simpl.
    destruct (reverse (a :: r)) eqn:Hrev; [|done].
    apply (f_equal reverse) in Hrev. rewrite reverse_involutive in Hrev.
    done.
Qed.

Lemma rstrip_blank (s : text) :
  rstrip s = [] ↔ forallb isspace s = true.
Proof.
  induction s as [|c s IH]; [done|]. rewrite rstrip_cons. simpl.
  destruct (rstrip s) as [|a r].
  - destruct (isspace c); simpl; [|split; done].
    split; [intros _; by apply IH|done].
  - split; [done|]. intros [_ Hs]%andb_true_iff. by apply IH in Hs.
Qed.

Lemma lstrip_blank (s : text) :
  lstrip s = [] ↔ forallb isspace s = true.
Proof.
  induction s as [|c s IH]; [done|]. simpl.
  destruct (isspace c); simpl; [done|]. split; done.
Qed.

Lemma forallb_isspace_lstrip (s : text) :
  forallb isspace (lstrip s) = forallb isspace s.
Proof.
  induction s as [|c s IH]; [done|]. simpl.
  destruct (isspace c) eqn:Hc; simpl; [done|]. by rewrite Hc.
Qed.

Lemma strip_blank (s : text) :
  strip s = [] ↔ forallb isspace s = true.
Proof. unfold strip. by rewrite rstrip_blank, forallb_isspace_lstrip. Qed.

Lemma isspace_SPACE : isspace SPACE = true.
Proof. done. Qed.

Lemma forallb_isspace_sub_spaces (b : bool) (s : text) :
  forallb isspace (sub_spaces b s) = forallb isspace s.
Proof.
  revert b. induction s as [|c s IH]; intros b; [done|]. simpl.
  destruct (isspace c) eqn:Hc; simpl.
  - destruct b; simpl; by rewrite IH.
  - by rewrite Hc.
Qed.

Lemma forallb_isspace_replace_nbsp (s : text) :
  forallb isspace (replace1 NBSP SPACE s) = forallb isspace s.
Proof.
  induction s as [|c s IH]; [done|]. simpl. rewrite IH. f_equal.
  destruct (c =? NBSP)%N eqn:Hc; [|done].
  apply N.eqb_eq in Hc as ->. done.
Qed.

Lemma spaced_sub_spaces (b : bool) (s : text) :
  spaced b (sub_spaces b s) = true.
Proof.
  revert b. induction s as [|c s IH]; intros b; [done|]. simpl.
  destruct (isspace c) eqn:Hc.
  - destruct b; [apply IH|]. simpl. apply IH.
  - simpl. rewrite Hc. apply IH.
Qed.

Lemma spaced_weaken (s : text) : spaced true s = true → spaced false s = true.
Proof.
  destruct s as [|c s]; [done|]. simpl.
  destruct (isspace c); [|done]. by rewrite andb_false_r.
Qed.

Lemma spaced_lstrip (s : text) :
  spaced false s = true → spaced true (lstrip s) = true.
Proof.
  destruct s as [|c s]; [done|]. simpl.
  destruct (isspace c) eqn:Hc; [|simpl; by rewrite Hc].
  intros [_ Hs]%andb_true_iff.
  destruct s as [|a s]; [done|]. simpl in *.
  destruct (isspace a) eqn:Ha; [by rewrite andb_false_r in Hs|].
  simpl. by rewrite Ha.
Qed.

Lemma spaced_rstrip (b : bool) (s : text) :
  spaced b s = true → spaced b (rstrip s) = true.
Proof.
  revert b. induction s as [|c s IH]; intros b; [done|].
  rewrite rstrip_cons. simpl.
  destruct (isspace c) eqn:Hc.
  - intros [Hcb Hs]%andb_true_iff. apply IH in Hs.
    destruct (rstrip s) as [|a r]; [done|].
    cbn [spaced]. rewrite Hc. by rewrite Hcb.
  - intros Hs. apply IH in Hs.
    destruct (rstrip s) as [|a r]; cbn [spaced]; by rewrite Hc.
Qed.

Lemma ends_nonspace_rstrip (s : text) : ends_nonspace (rstrip s) = true.
Proof.
  induction s as [|c s IH]; [done|]. rewrite rstrip_cons.
  destruct (rstrip s) as [|a r]; [|done].
  destruct (isspace c) eqn:Hc; simpl; [done|]. by rewrite Hc.
Qed.

Lemma normalize_spaces_is_normalized (s : text) :
  is_normalized (normalize_spaces s) = true.
Proof.
  unfold is_normalized, normalize_spaces, strip.
  rewrite ends_nonspace_rstrip, andb_true_r.
  apply spaced_rstrip, spaced_lstrip, spaced_sub_spaces.
Qed.

Lemma spaced_whitespace (b : bool) (s : text) (c : cp) :
  spaced b s = true → c ∈ s → isspace c = true → c = SPACE.
Proof.
  revert b. induction s as [|a s IH]; intros b Hs Hin Hc.
  - by apply elem_of_nil in Hin.
  - simpl in Hs. apply elem_of_cons in Hin as [->|Hin].
    + rewrite Hc in Hs. apply andb_true_iff in Hs as [Ha _].
      apply andb_true_iff in Ha as [Ha _]. by apply N.eqb_eq in Ha.
    + destruct (isspace a); [|by eapply IH].
      apply andb_true_iff in Hs as [_ Hs]. by eapply IH.
Qed.

Lemma spaced_no_double (b : bool) (s : text) :
  spaced b s = true → contains [SPACE; SPACE] s = false.
Proof.
  revert b. induction s as [|c s IH]; intros b Hs; [done|].
  cbn [contains]. apply orb_false_iff. split.
  - simpl in Hs. cbn [startswith].
    destruct (SPACE =? c)%N eqn:Hc; [|done]. apply N.eqb_eq in Hc as <-.
    rewrite isspace_SPACE in Hs. apply andb_true_iff in Hs as [_ Hs].
    destruct s as [|a s]; [done|]. simpl in Hs. cbn [startswith andb].
    destruct (SPACE =? a)%N eqn:Ha; [|done]. apply N.eqb_eq in Ha as <-.
    rewrite isspace_SPACE in Hs. by rewrite andb_false_r in Hs.
  - simpl in Hs. destruct (isspace c); [|by eapply IH].
    apply andb_true_iff in Hs as [_ Hs]. by eapply IH.
Qed.

Lemma spaced_lstrip_id (s : text) : spaced true s = true → lstrip s = s.
Proof.
  destruct s as [|c s]; [done|]. simpl.
  destruct (isspace c); [|done]. by rewrite andb_false_r.
Qed.

Lemma ends_nonspace_rstrip_id (s : text) :
  ends_nonspace s = true → rstrip s = s.
Proof.
  induction s as [|c s IH]; [done|]. rewrite rstrip_cons.
  destruct s as [|a s].
  - simpl. intros Hc. by destruct (isspace c).
  - intros Hs. rewrite IH by done. done.
Qed.

Lemma spaced_replace_nbsp (b : bool) (s : text) :
  spaced b s = true → replace1 NBSP SPACE s = s.
Proof.
  intros Hs. unfold replace1. rewrite <- (map_id s) at 2.
  apply map_ext_in. intros c Hin%list_elem_of_In.
  destruct (c =? NBSP)%N eqn:Hc; [|done]. apply N.eqb_eq in Hc as ->.
  by apply (spaced_whitespace b s NBSP Hs) in Hin.
Qed.

Lemma spaced_sub_spaces_id (b : bool) (s : text) :
  spaced b s = true → sub_spaces b s = s.
Proof.
  revert b. induction s as [|c s IH]; intros b Hs; [done|]. simpl in *.
  destruct (isspace c).
  - apply andb_true_iff in Hs as [Hcb Hs].
    apply andb_true_iff in Hcb as [Hc Hb]. apply N.eqb_eq in Hc as ->.
    destruct b; [done|]. by rewrite IH.
  - by rewrite IH.
Qed.

(** A text of the shape that [normalize_spaces] produces is left as it
    is. *)
Lemma normalize_spaces_fixed (s : text) :
  is_normalized s = true → normalize_spaces s = s.
Proof.
  intros [Hs He]%andb_true_iff. unfold normalize_spaces, strip.
  rewrite (spaced_replace_nbsp true) by done.
  rewrite spaced_sub_spaces_id by by apply spaced_weaken.
  rewrite spaced_lstrip_id by done. by apply ends_nonspace_rstrip_id.
Qed.

(** X1. The text that [normalize_spaces] returns has no whitespace at
    either end, and inside only single plain spaces: every whitespace
    code point in it is U+0020, and no two of them are adjacent. *)
Theorem normalize_spaces_shape (s : text) :
  (∀ c, c ∈ normalize_spaces s → isspace c = true → c = SPACE)
  ∧ contains [SPACE; SPACE] (normalize_spaces s) = false
  ∧ lstrip (normalize_spaces s) = normalize_spaces s
  ∧ rstrip (normalize_spaces s) = normalize_spaces s.
Proof.
  pose proof (normalize_spaces_is_normalized s) as [Hs He]%andb_true_iff.
  split; [|split; [|split]].
  - intros c. by apply (spaced_whitespace true).
  - by apply (spaced_no_double true).
  - by apply spaced_lstrip_id.
  - by apply ends_nonspace_rstrip_id.
Qed.

(** X2. [normalize_spaces] is idempotent: normalizing a normalized text
    changes nothing, so the second normalization that [safe_lower] runs
    on the text the salary stage has normalized is void. *)
Theorem normalize_spaces_idempotent (s : text) :
  normalize_spaces (normalize_spaces s) = normalize_spaces s.
Proof. apply normalize_spaces_fixed, normalize_spaces_is_normalized. Qed.

(** X3. [normalize_spaces] returns the empty text exactly for the texts
    made of whitespace only (the empty text among them): these are the
    cells that the stages treat as absent. *)
Theorem normalize_spaces_blank (s : text) :
  normalize_spaces s = [] ↔ forallb isspace s = true.
Proof.
  unfold normalize_spaces.
  by rewrite strip_blank, forallb_isspace_sub_spaces,
    forallb_isspace_replace_nbsp.
Qed.

Lemma elem_lstrip (s : text) (c : cp) : c ∈ lstrip s → c ∈ s.
Proof.
  induction s as [|a s IH]; [done|]. simpl.
  destruct (isspace a); [|done]. intros Hin. right. by apply IH.
Qed.

Lemma elem_rstrip (s : text) (c : cp) : c ∈ rstrip s → c ∈ s.
Proof.
  unfold rstrip. rewrite elem_of_reverse. intros Hin%elem_lstrip.
  by apply elem_of_reverse.
Qed.

Lemma elem_sub_spaces (b : bool) (s : text) (c : cp) :
  c ∈ sub_spaces b s → c = SPACE ∨ c ∈ s.
Proof.
  revert b. induction s as [|a s IH]; intros b; simpl.
  - by intros ?%elem_of_nil.
  - destruct (isspace a).
    + destruct b.
      * intros [?|?]%IH; [by left|right; by right].
      * intros [->|[?|?]%IH]%elem_of_cons; [by left|by left|right; by right].
    + intros [->|[?|?]%IH]%elem_of_cons; [right; left|by left|right; by right].
Qed.

Lemma elem_replace1 (a b : cp) (s : text) (c : cp) :
  c ∈ replace1 a b s → c = b ∨ c ∈ s.
Proof.
  unfold replace1. intros (x & -> & Hx)%list_elem_of_fmap.
  destruct (x =? a)%N; [by left|by right].
Qed.

(** The code points of a normalized text come from the text, or are the
    plain space. *)
Lemma elem_normalize_spaces (s : text) (c : cp) :
  c ∈ normalize_spaces s → c = SPACE ∨ c ∈ s.
Proof.
  unfold normalize_spaces, strip.
  intros [?|[?|?]%elem_replace1]%elem_rstrip%elem_lstrip%elem_sub_spaces; auto.
Qed.

Lemma before_comma_no_comma (t : text) : 0x2C%N ∉ before_comma t.
Proof.
  induction t as [|c t IH]; cbn [before_comma]; [by intros ?%elem_of_nil|].
  destruct (c =? 0x2C)%N eqn:Hc; [by intros ?%elem_of_nil|].
  intros [<-|?]%elem_of_cons; [done|by apply IH].
Qed.

(** X4. [parse_city] never returns a text with a comma.  It returns the
    empty text, and not "Не указано", exactly when the normalized cell
    starts with a comma; a cell that is not a text, or is blank, gives
    "Не указано". *)
Theorem parse_city_result :
  (∀ v : value, 0x2C%N ∉ parse_city v)
  ∧ (∀ s : text, parse_city (VStr s) = [] ↔ ∃ r, normalize_spaces s = 0x2C%N :: r)
  ∧ (∀ s : text, forallb isspace s = true → parse_city (VStr s) = u "Не указано")
  ∧ (∀ v : value, (∀ s, v ≠ VStr s) → parse_city v = u "Не указано").
Proof.
  assert (Hdef : 0x2C%N ∉ u "Не указано").
  { apply (bool_decide_unpack _). vm_compute. reflexivity. }
  split; [|split; [|split]].
  - intros [s| | |]; simpl; [|done..].
    destruct (is_empty (normalize_spaces s)); [done|].
    intros [?|Hin]%elem_normalize_spaces; [done|].
    by apply before_comma_no_comma in Hin.
  - intros s. simpl.
    pose proof (normalize_spaces_is_normalized s) as [Hs _]%andb_true_iff.
    destruct (normalize_spaces s) as [|c t] eqn:Ht; cbn [is_empty].
    + split; [by vm_compute|]. by intros [r Hr].
    + rewrite normalize_spaces_blank. simpl in Hs.
      destruct (isspace c) eqn:Hspace; [by rewrite andb_false_r in Hs|].
      simpl. destruct (c =? 0x2C)%N eqn:Hc.
      * apply N.eqb_eq in Hc as ->. split; [eauto|done].
      * simpl. rewrite Hspace. split; [done|].
        intros [r [= -> _]]. done.
  - intros s Hs. simpl. apply normalize_spaces_blank in Hs. by rewrite Hs.
  - intros [s| | |] Hv; [by destruct (Hv s)|done..].
Qed.

(** ** Closed sets of labels *)

Lemma first_match_label (rules : list (text * list text)) (t other : text) :
  first_match rules t other ∈ other :: rules.*1.
Proof.
  induction rules as [|r rules IH]; simpl; [left|].
  destruct (rule_matches t r); [right; left|].
  apply elem_of_cons in IH as [->|?]; [left|right; by right].
Qed.

(** X5. [categorize_job_title] returns one of 22 labels: "Не указано",
    "Прочее", or the label of one of the twenty rules. *)
Theorem categorize_job_title_closed (U : Unicode) (title : value) :
  categorize_job_title title ∈ u "Не указано" :: u "Прочее" :: job_rules.*1.
Proof.
  rewrite categorize_first_match.
  destruct (is_empty (safe_lower title)); [left|]. right.
  apply first_match_label.
Qed.

Lemma parse_level_first_match `{Unicode} (val : value) :
  parse_level val =
    if is_empty (safe_lower val) then u "Не указано"
    else first_match edu_rules (safe_lower val) (u "Не указано").
Proof.
  unfold parse_level, edu_rules.
  cbn [first_match rule_matches contains_any existsb fst snd].
  rewrite !orb_false_r, !orb_assoc. reflexivity.
Qed.

Lemma parse_level_closed `{Unicode} (val : value) :
  parse_level val ∈ education_levels.
Proof.
  rewrite parse_level_first_match.
  destruct (is_empty (safe_lower val)).
  - apply (bool_decide_unpack _). vm_compute. reflexivity.
  - pose proof (first_match_label edu_rules (safe_lower val) (u "Не указано"))
      as Hin.
    unfold edu_rules in Hin at 2. cbn [fmap list_fmap fst] in Hin.
    rewrite !elem_of_cons, elem_of_nil in Hin.
    repeat destruct Hin as [Hin|Hin]; try done; rewrite Hin;
      apply (bool_decide_unpack _); vm_compute; reflexivity.
Qed.

(** X6. [parse_level] is the first-match-wins evaluation of six ordered
    rules and returns one of seven labels.  A text with "неокончен" and
    neither "доктор" nor "кандидат" is "Неоконченное высшее", also when
    it holds "высшее"; a text with "среднее специаль" that matches none
    of the four rules before is "Среднее специальное", although it holds
    "среднее". *)
Theorem parse_level_ordered :
  (∀ (U : Unicode) (val : value),
     parse_level val =
       if is_empty (safe_lower val) then u "Не указано"
       else first_match edu_rules (safe_lower val) (u "Не указано"))
  ∧ (∀ (U : Unicode) (val : value), parse_level val ∈ education_levels)
  ∧ (∀ (U : Unicode) (val : value),
       contains (u "неокончен") (safe_lower val) = true →
       contains (u "доктор") (safe_lower val) = false →
       contains (u "кандидат") (safe_lower val) = false →
       parse_level val = u "Неоконченное высшее")
  ∧ (∀ (U : Unicode) (val : value),
       contains (u "среднее специаль") (safe_lower val) = true →
       Forall (fun r => rule_matches (safe_lower val) r = false)
              (take 4 edu_rules) →
       contains (u "среднее") (safe_lower val) = true
       ∧ parse_level val = u "Среднее специальное").
Proof.
  split; [intros; apply parse_level_first_match|].
  split; [|split].
  - intros U val. apply parse_level_closed.
  - intros U val H1 H2 H3. unfold parse_level.
    destruct (safe_lower val) as [|c t] eqn:Ht; [done|]. cbn [is_empty].
    by rewrite H2, H3, H1.
  - intros U val H1 Hbefore. split.
    + eapply contains_trans; [|exact H1]. by vm_compute.
    + rewrite parse_level_first_match.
      destruct (safe_lower val) as [|c t] eqn:Ht; [done|]. cbn [is_empty].
      rewrite <- (take_drop 4 edu_rules), first_match_skip by done.
      unfold edu_rules.
      cbn [drop first_match rule_matches contains_any existsb fst snd].
      by rewrite H1.
Qed.

Lemma parse_level_ordered_witness :
  contains (u "неокончен")
    (safe_lower (VStr (u "Неоконченное высшее образование 2015"))) = true
  ∧ parse_level (VStr (u "Неоконченное высшее образование 2015"))
    = u "Неоконченное высшее".
Proof.
  split; [vm_compute; reflexivity|].
  apply (proj1 (proj2 (proj2 parse_level_ordered)) py_unicode);
    vm_compute; reflexivity.
Defined.

(** ** The columns that the stages derive *)

(** Reading a column through the assignments made before. *)
Ltac read_columns :=
  repeat (rewrite get_column_set_eq || rewrite get_column_set_ne by done).

Lemma education_names_distinct :
  u "education_level" ≠ u "education_year"
  ∧ _EDU_COL ≠ u "education_level".
Proof. split; vm_compute; discriminate. Qed.

Lemma location_names_distinct :
  u "city" ≠ u "relocate_ready" ∧ u "city" ≠ u "trips_ready"
  ∧ u "relocate_ready" ≠ u "trips_ready"
  ∧ _CITY_COL ≠ u "city" ∧ _CITY_COL ≠ u "relocate_ready".
Proof. repeat split; vm_compute; discriminate. Qed.

Lemma parse_year_range `{Unicode} (val : value) :
  parse_year val = VNaN
  ∨ ∃ y : Z, parse_year val = VNum (inject_Z y) ∧ (1950 ≤ y ≤ 2035)%Z.
Proof.
  unfold parse_year. destruct (is_empty _); [by left|].
  destruct (year_search _) as [m|]; [|by left].
  destruct ((1950 <=? int_of_digits m)%Z && (int_of_digits m <=? 2035)%Z)
    eqn:Hr; [|by left].
  right. exists (int_of_digits m). split; [done|]. lia.
Qed.

(** X7. The education stage returns whenever the context has a table
    and leaves the diagnostics as they are.  With the column
    "Образование и ВУЗ", [education_level] and [education_year] are
    [parse_level] and [parse_year] of each cell of it, row by row; without
    the column they are "Не указано" and NaN in every row.  In both cases a
    cell of [education_year] is NaN or a year from 1950 to 2035, and a cell
    of [education_level] is one of the seven levels. *)
Theorem education_stage_columns (U : Unicode) (ctx : PipelineContext)
    (d : DataFrame) :
  df ctx = Some d →
  ∃ d',
    ParseEducationHandler_handle ctx
    = (Return (), {| df := Some d'; output_dir := output_dir ctx;
                     diag := diag ctx |})
    ∧ get_column (u "education_level") d'
      = (if has_column _EDU_COL d
         then map (fun v => VStr (parse_level v)) (get_column _EDU_COL d)
         else replicate (df_len d) (VStr (u "Не указано")))
    ∧ get_column (u "education_year") d'
      = (if has_column _EDU_COL d
         then map parse_year (get_column _EDU_COL d)
         else replicate (df_len d) VNaN)
    ∧ (∀ x, x ∈ get_column (u "education_year") d' →
            x = VNaN
            ∨ ∃ y : Z, x = VNum (inject_Z y) ∧ (1950 ≤ y ≤ 2035)%Z)
    ∧ (∀ x, x ∈ get_column (u "education_level") d' →
            ∃ l, x = VStr l ∧ l ∈ education_levels).
Proof.
  intros Hdf. destruct education_names_distinct as [H1 H2].
  unfold ParseEducationHandler_handle. rewrite load_df_bind, Hdf.
  destruct (has_column _EDU_COL d) eqn:Hcol; cbn [negb]; cbv zeta;
    unfold set_scalar, set_df; eexists; (split; [reflexivity|]);
    rewrite !get_column_set_eq, !get_column_set_ne, !get_column_set_eq by done;
    rewrite ?(get_column_set_ne _EDU_COL) by done.
  - split; [done|]. split; [done|]. split.
    + intros x (v & -> & _)%list_elem_of_fmap. apply parse_year_range.
    + intros x (v & -> & _)%list_elem_of_fmap. eexists. split; [done|].
      apply parse_level_closed.
  - split; [done|]. split; [done|]. split.
    + intros x [-> _]%elem_of_replicate. by left.
    + intros x [-> _]%elem_of_replicate. eexists. split; [done|].
      apply (bool_decide_unpack _). vm_compute. reflexivity.
Qed.

Lemma education_stage_columns_witness :
  df sample_ctx = Some sample_table
  ∧ ∃ d',
      (ParseEducationHandler_handle sample_ctx).2.(df) = Some d'
      ∧ get_column (u "education_year") d' = [VNum (inject_Z 2010); VNaN; VNaN; VNaN].
Proof.
  split; [reflexivity|].
  destruct (education_stage_columns py_unicode sample_ctx sample_table)
    as (d' & Hrun & _ & Hyear & _); [reflexivity|].
  exists d'. split; [by rewrite Hrun|]. rewrite Hyear. vm_compute. reflexivity.
Defined.

(** X8. The location stage returns whenever the context has a table and
    leaves the diagnostics as they are.  With the column "Город", [city],
    [relocate_ready] and [trips_ready] are [parse_city], [parse_relocate]
    and [parse_trips] of each cell of it, row by row; without the column
    they are "Не указано", false and false in every row. *)
Theorem location_stage_columns (U : Unicode) (ctx : PipelineContext)
    (d : DataFrame) :
  df ctx = Some d →
  ∃ d',
    ParseLocationHandler_handle ctx
    = (Return (), {| df := Some d'; output_dir := output_dir ctx;
                     diag := diag ctx |})
    ∧ get_column (u "city") d'
      = (if has_column _CITY_COL d
         then map (fun v => VStr (parse_city v)) (get_column _CITY_COL d)
         else replicate (df_len d) (VStr (u "Не указано")))
    ∧ get_column (u "relocate_ready") d'
      = (if has_column _CITY_COL d
         then map (fun v => VBool (parse_relocate v)) (get_column _CITY_COL d)
         else replicate (df_len d) (VBool false))
    ∧ get_column (u "trips_ready") d'
      = (if has_column _CITY_COL d
         then map (fun v => VBool (parse_trips v)) (get_column _CITY_COL d)
         else replicate (df_len d) (VBool false)).
Proof.
  intros Hdf. destruct location_names_distinct as (H1 & H2 & H3 & H4 & H5).
  unfold ParseLocationHandler_handle. rewrite load_df_bind, Hdf.
  destruct (has_column _CITY_COL d) eqn:Hcol; cbn [negb]; cbv zeta;
    unfold set_scalar, set_df; eexists; (split; [reflexivity|]);
    repeat (rewrite get_column_set_eq || rewrite get_column_set_ne by done);
    done.
Qed.

Lemma location_stage_columns_witness :
  df sample_ctx = Some sample_table
  ∧ ∃ d',
      (ParseLocationHandler_handle sample_ctx).2.(df) = Some d'
      ∧ get_column (u "relocate_ready") d'
        = [VBool true; VBool false; VBool false; VBool false]
      ∧ get_column (u "city") d'
        = [VStr (u "Москва"); VStr (u "Не указано");
           VStr (u "Санкт-Петербург"); VStr (u "Казань")].
Proof.
  split; [reflexivity|].
  destruct (location_stage_columns py_unicode sample_ctx sample_table)
    as (d' & Hrun & Hcity & Hrel & _); [reflexivity|].
  exists d'. split; [by rewrite Hrun|].
  rewrite Hcity, Hrel. split; vm_compute; reflexivity.
Defined.

(** ** The column cleaning stage *)

Lemma lstrip_idempotent (s : text) : lstrip (lstrip s) = lstrip s.
Proof.
  induction s as [|c s IH]; [done|]. simpl.
  destruct (isspace c) eqn:Hc; [done|]. simpl. by rewrite Hc.
Qed.

Lemma lstrip_length (s : text) : length (lstrip s) ≤ length s.
Proof.
  induction s as [|c s IH]; [done|]. simpl.
  destruct (isspace c); simpl; lia.
Qed.

Lemma lstrip_rstrip (s : text) : lstrip s = s → lstrip (rstrip s) = rstrip s.
Proof.
  destruct s as [|c s]; [done|]. simpl.
  destruct (isspace c) eqn:Hc.
  - intros Heq. pose proof (lstrip_length s) as Hlen.
    rewrite Heq in Hlen. simpl in Hlen. lia.
  - intros _. rewrite rstrip_cons.
    destruct (rstrip s); rewrite ?Hc; simpl; by rewrite Hc.
Qed.

Lemma rstrip_idempotent (s : text) : rstrip (rstrip s) = rstrip s.
Proof. apply ends_nonspace_rstrip_id, ends_nonspace_rstrip. Qed.

Lemma strip_idempotent (s : text) : strip (strip s) = strip s.
Proof.
  unfold strip. rewrite (lstrip_rstrip (lstrip s)) by apply lstrip_idempotent.
  apply rstrip_idempotent.
Qed.

Lemma filter_filter_same {A} (p : A → bool) (l : list A) :
  List.filter p (List.filter p l) = List.filter p l.
Proof.
  induction l as [|x l IH]; [done|]. simpl.
  destruct (p x) eqn:Hp; simpl; [|done]. by rewrite Hp, IH.
Qed.

(** Dropping the columns whose name is in the list of the names that
    satisfy [p] drops the columns whose name satisfies [p]. *)
Lemma drop_by_names (p : text → bool) (cols : list (text * list value)) :
  List.filter (fun c => negb (existsb (text_eqb c.1) (List.filter p cols.*1))) cols
  = List.filter (fun c => negb (p c.1)) cols.
Proof.
  apply filter_ext_in. intros c Hin. f_equal.
  destruct (p c.1) eqn:Hp.
  - apply existsb_exists. exists c.1. split; [|by apply text_eqb_eq].
    apply filter_In. split; [|done].
    apply list_elem_of_In, list_elem_of_fmap. exists c.
    split; [done|]. by apply list_elem_of_In.
  - apply not_true_is_false. intros (n & Hn & Heq)%existsb_exists.
    apply text_eqb_eq in Heq as <-. apply filter_In in Hn as [_ Hn]. congruence.
Qed.

Lemma filter_all {A} (p : A → bool) (l : list A) :
  (∀ x, x ∈ l → p x = true) → List.filter p l = l.
Proof.
  induction l as [|x l IH]; [done|]. intros Hp. simpl.
  rewrite Hp by left. f_equal. apply IH. intros y Hy. apply Hp. by right.
Qed.

Section Clean.
Context `{Unicode}.

(** The table that the cleaning stage leaves. *)
Lemma clean_handle_run ctx d :
  df ctx = Some d →
  CleanColumnsHandler_handle ctx =
    (Return (),
     {| df := Some
          {| index := index d;
             columns :=
               List.filter
                 (fun c => negb (startswith (str_lower c.1) (u "unnamed")))
                 (map (fun c => (strip c.1, c.2)) (columns d)) |};
        output_dir := output_dir ctx; diag := diag ctx |}).
Proof.
  intros Hdf. unfold CleanColumnsHandler_handle.
  rewrite load_df_bind, Hdf. cbv zeta. unfold set_df. do 3 f_equal.
  rewrite <- (drop_by_names (fun n => startswith (str_lower n) (u "unnamed"))).
  unfold col_names, rename_columns. cbn [columns index].
  destruct (List.filter _ (map _ (columns d)).*1) as [|n ns] eqn:Hdrop.
  - cbn [existsb negb]. by rewrite filter_all.
  - done.
Qed.

End Clean.

(** X9. The cleaning stage returns whenever the context has a table and
    leaves the row labels and the diagnostics as they are.  It strips the
    column names and keeps, in their order and with their cells, exactly
    the columns whose stripped name, in lower case, does not start with
    "unnamed"; so no name of the result starts with "unnamed" and every
    name is stripped. *)
Theorem clean_stage_columns (U : Unicode) (ctx : PipelineContext)
    (d : DataFrame) :
  df ctx = Some d →
  ∃ d',
    CleanColumnsHandler_handle ctx
    = (Return (), {| df := Some d'; output_dir := output_dir ctx;
                     diag := diag ctx |})
    ∧ index d' = index d
    ∧ columns d'
      = List.filter (fun c => negb (startswith (str_lower c.1) (u "unnamed")))
          (map (fun c => (strip c.1, c.2)) (columns d))
    ∧ ∀ n, n ∈ col_names d' →
        startswith (str_lower n) (u "unnamed") = false ∧ strip n = n.
Proof.
  intros Hdf. eexists. split; [by apply clean_handle_run|].
  split; [done|]. split; [done|].
  unfold col_names. cbn [columns].
  intros n (c & -> & [Hin Hp]%list_elem_of_In%filter_In)%list_elem_of_fmap.
  split; [by apply negb_true_iff|].
  apply in_map_iff in Hin as (c0 & <- & _). apply strip_idempotent.
Qed.

Lemma clean_stage_columns_witness :
  df sample_ctx = Some sample_table
  ∧ ∃ d',
      (CleanColumnsHandler_handle sample_ctx).2.(df) = Some d'
      ∧ col_names d'
        = [u "Ищет работу на должность:"; u "ЗП"; u "Город"; u "Образование и ВУЗ"].
Proof.
  split; [reflexivity|].
  destruct (clean_stage_columns py_unicode sample_ctx sample_table)
    as (d' & Hrun & _ & Hcols & _); [reflexivity|].
  exists d'. split; [by rewrite Hrun|].
  unfold col_names. rewrite Hcols. vm_compute. reflexivity.
Defined.

(** X10. Running the cleaning stage a second time changes nothing: the
    stage followed by itself gives the result of the stage. *)
Theorem clean_stage_idempotent (U : Unicode) (ctx : PipelineContext) :
  (CleanColumnsHandler_handle ≫= fun _ => CleanColumnsHandler_handle) ctx
  = CleanColumnsHandler_handle ctx.
Proof.
  unfold mbind at 1, handler_bind at 1.
  destruct (df ctx) as [d|] eqn:Hdf.
  - rewrite (clean_handle_run ctx d Hdf).
    erewrite clean_handle_run by reflexivity. cbn [index columns output_dir diag].
    do 4 f_equal.
    match goal with
    | |- List.filter _ (map ?f ?L) = _ =>
      assert (Hmap : map f L = L); [|rewrite Hmap; apply filter_filter_same]
    end.
    match goal with |- map _ ?L = _ => rewrite <- (map_id L) at 2 end.
    apply map_ext_in. intros c [Hin _]%filter_In.
    apply in_map_iff in Hin as (c0 & <- & _). simpl.
    by rewrite strip_idempotent.
  - unfold CleanColumnsHandler_handle. by rewrite load_df_bind, Hdf.
Qed.

(** ** More on the salary stage *)

(** X11. Every cell of [target_salary_rub] that the salary stage writes
    is NaN or a strictly positive number. *)
Theorem salary_targets_positive (U : Unicode)
    (load_fx_rates : text → outcome FxRates)
    (ctx : PipelineContext) (d : DataFrame) (fx : FxRates) :
  df ctx = Some d → aligned d → has_column _SALARY_COL d = true →
  load_fx_rates (output_dir ctx) = Return fx →
  ∃ ctx' d',
    ParseSalaryHandler_handle load_fx_rates ctx = (Return (), ctx')
    ∧ df ctx' = Some d'
    ∧ ∀ x, x ∈ get_column (u "target_salary_rub") d' →
        x = VNaN ∨ ∃ q : Q, x = VNum q ∧ (0 < q)%Q.
Proof.
  intros Hdf Ha Hcol Hfx.
  destruct (salary_handle_columns load_fx_rates ctx d fx Hdf Ha Hcol Hfx)
    as (ctx' & d' & Hrun & Hd' & _ & _ & Ht & _).
  exists ctx', d'. split; [done|]. split; [done|].
  rewrite Ht. intros x (v & -> & _)%list_elem_of_fmap. unfold row_target.
  destruct (row_result (rates fx) v) as [[cur rub]|] eqn:Hres; simpl; [|by left].
  right. exists rub. split; [done|].
  apply row_result_currency in Hres as [_ Hle].
  apply Qnot_le_lt. intros Hle'%Qle_bool_iff. congruence.
Qed.

Lemma salary_targets_positive_witness :
  has_column _SALARY_COL sample_table = true
  ∧ ∃ ctx' d',
      ParseSalaryHandler_handle sample_fx sample_ctx = (Return (), ctx')
      ∧ df ctx' = Some d'
      ∧ ∀ x, x ∈ get_column (u "target_salary_rub") d' →
          x = VNaN ∨ ∃ q : Q, x = VNum q ∧ (0 < q)%Q.
Proof.
  split; [vm_compute; reflexivity|].
  apply (salary_targets_positive py_unicode sample_fx sample_ctx sample_table
           sample_rates);
    [reflexivity | repeat constructor | vm_compute; reflexivity | reflexivity].
Defined.

(** X12. The salary stage changes no other column: every column other
    than [salary_currency] and [target_salary_rub], the "ЗП" column among
    them, has the same cells after the stage; the source of the rates is
    recorded in the diagnostics under [fx_rates_source]. *)
Theorem salary_other_columns_kept (U : Unicode)
    (load_fx_rates : text → outcome FxRates)
    (ctx : PipelineContext) (d : DataFrame) (fx : FxRates) :
  df ctx = Some d → has_column _SALARY_COL d = true →
  load_fx_rates (output_dir ctx) = Return fx →
  ∃ ctx' d',
    ParseSalaryHandler_handle load_fx_rates ctx = (Return (), ctx')
    ∧ df ctx' = Some d'
    ∧ output_dir ctx' = output_dir ctx
    ∧ diag ctx' !! "fx_rates_source" = Some (DStr (source fx))
    ∧ ∀ name, name ≠ u "salary_currency" → name ≠ u "target_salary_rub" →
        get_column name d' = get_column name d.
Proof.
  intros Hdf Hcol Hfx.
  rewrite (salary_handle_run _ _ _ _ Hdf Hcol Hfx). cbv zeta.
  eexists _, _. split; [reflexivity|]. cbn [df output_dir diag].
  split; [done|]. split; [done|]. split.
  - rewrite lookup_insert_ne by done.
    destruct (existsb id _); rewrite !lookup_insert_ne by done;
      apply lookup_insert_eq.
  - intros name H1 H2. by read_columns.
Qed.

Lemma salary_other_columns_kept_witness :
  has_column _SALARY_COL sample_table = true
  ∧ ∃ ctx' d',
      ParseSalaryHandler_handle sample_fx sample_ctx = (Return (), ctx')
      ∧ df ctx' = Some d'
      ∧ get_column _CITY_COL d' = get_column _CITY_COL sample_table.
Proof.
  split; [vm_compute; reflexivity|].
  destruct (salary_other_columns_kept py_unicode sample_fx sample_ctx
              sample_table sample_rates)
    as (ctx' & d' & Hrun & Hd' & _ & _ & Hkeep);
    [reflexivity | vm_compute; reflexivity | reflexivity|].
  exists ctx', d'. split; [exact Hrun|]. split; [exact Hd'|].
  apply Hkeep; vm_compute; discriminate.
Defined.

(** X13. When the rate provider raises, the salary stage raises the same
    error and leaves the context as it was: no diagnostic is written and
    the table is not replaced. *)
Theorem salary_provider_failure (U : Unicode)
    (load_fx_rates : text → outcome FxRates)
    (ctx : PipelineContext) (d : DataFrame) (e : exn) :
  df ctx = Some d → has_column _SALARY_COL d = true →
  load_fx_rates (output_dir ctx) = Raise e →
  ParseSalaryHandler_handle load_fx_rates ctx = (Raise e, ctx).
Proof.
  intros Hdf Hcol Hfx. unfold ParseSalaryHandler_handle.
  rewrite load_df_bind, Hdf, Hcol. cbn [negb].
  unfold mbind, handler_bind, get_output_dir, call. by rewrite Hfx.
Qed.

Lemma salary_provider_failure_witness :
  has_column _SALARY_COL sample_table = true
  ∧ ParseSalaryHandler_handle
      (fun _ => Raise (Exception (u "no rates"))) sample_ctx
    = (Raise (Exception (u "no rates")), sample_ctx).
Proof.
  split; [vm_compute; reflexivity|].
  apply (salary_provider_failure py_unicode _ sample_ctx sample_table);
    [reflexivity | vm_compute; reflexivity | reflexivity].
Defined.

(** X14. The conversion of a row that reaches it.  When the rate table
    has no rate for the currency of the row, the row is left null with an
    empty currency and the stage goes on; with a rate, the target is the
    scaled amount times the rate if that product is positive, and the row
    is left null if the product is zero or negative. *)
Theorem salary_row_conversion (U : Unicode)
    (load_fx_rates : text → outcome FxRates)
    (ctx : PipelineContext) (d : DataFrame) (fx : FxRates)
    (i : nat) (v : value) (t cur : text) (amount : Q) :
  df ctx = Some d → aligned d →
  load_fx_rates (output_dir ctx) = Return fx →
  get_column _SALARY_COL d !! i = Some v →
  row_amount v = Some (t, cur, amount) →
  ∃ ctx' d',
    ParseSalaryHandler_handle load_fx_rates ctx = (Return (), ctx')
    ∧ df ctx' = Some d'
    ∧ (get_column (u "target_salary_rub") d' !! i,
       get_column (u "salary_currency") d' !! i)
      = match rates fx !! cur with
        | None => (Some VNaN, Some (VStr []))
        | Some rate =>
          if Qle_bool (scale_amount t amount * rate) 0
          then (Some VNaN, Some (VStr []))
          else (Some (VNum (scale_amount t amount * rate)), Some (VStr cur))
        end.
Proof.
  intros Hdf Ha Hfx Hi Hrow.
  pose proof (get_column_lookup_has _ _ _ _ Hi) as Hcol.
  destruct (salary_handle_columns load_fx_rates ctx d fx Hdf Ha Hcol Hfx)
    as (ctx' & d' & Hrun & Hd' & _ & _ & Ht & Hc).
  exists ctx', d'. split; [done|]. split; [done|].
  rewrite Ht, Hc, !list_lookup_fmap, Hi. simpl.
  unfold row_target, row_currency, row_result, row_rub. rewrite Hrow. simpl.
  destruct (rates fx !! cur) as [rate|]; simpl; [|done].
  by destruct (Qle_bool _ 0).
Qed.

Lemma salary_row_conversion_witness :
  row_amount (VStr (u "60k USD")) = Some (u "60k usd", u "USD", inject_Z 60)
  ∧ ∃ ctx' d',
      ParseSalaryHandler_handle sample_fx sample_ctx = (Return (), ctx')
      ∧ df ctx' = Some d'
      ∧ get_column (u "target_salary_rub") d' !! 1
        = Some (VNum (inject_Z 60 * 1000 * 90)).
Proof.
  split; [vm_compute; reflexivity|].
  destruct (salary_row_conversion py_unicode sample_fx sample_ctx sample_table
              sample_rates 1 (VStr (u "60k USD")) (u "60k usd") (u "USD")
              (inject_Z 60))
    as (ctx' & d' & Hrun & Hd' & Hrow);
    [reflexivity | repeat constructor | reflexivity | vm_compute; reflexivity
    | vm_compute; reflexivity |].
  exists ctx', d'. split; [exact Hrun|]. split; [exact Hd'|].
  apply (f_equal fst) in Hrow. simpl in Hrow. rewrite Hrow.
  vm_compute. reflexivity.
Defined.
